(** * Session lifecycle of the LDAP authentication providers

    A shallow embedding of the two provider implementations of the
    repository (the provider with the client-side expiry policy and the
    older one under [extensions/vscode/src/stubs]) and of the token accessor
    [getUserToken], with the properties of their session store.

    The asynchronous methods are written in a small free monad: a program is
    a tree of host operations.  Two readings are given to such a tree:
    [run] executes it to completion, and [settle]/[resume] execute it from
    one suspension point (an [await]) to the next, which is what the
    reentrancy guard of [refreshSessions] is about. *)

From stdpp Require Import base strings list gmap.
From Stdlib Require Import ZArith Lia.

Local Open Scope string_scope.
Local Open Scope list_scope.
Local Open Scope Z_scope.

(** ** JavaScript values used by the providers *)

(** What a [throw] carries. *)
Inductive Exn : Type :=
| Error (message : string)          (* new Error(message) *)
| FetchError (reason : string)      (* fetch rejected: transport failure or abort by the timer *)
| SyntaxError (reason : string).    (* JSON.parse, response.json() *)

(** Truthiness of a string: only the empty string is falsy. *)
Definition truthy (s : string) : bool :=
  match s with
  | EmptyString => false
  | String _ _ => true
  end.

(** [x || d] where [x] is a string or [undefined]. *)
Definition or_else (x : option string) (d : string) : string :=
  match x with
  | Some s => if truthy s then s else d
  | None => d
  end.

(** [!x] where [x] is a string or [undefined]. *)
Definition falsy (x : option string) : bool :=
  match x with
  | Some s => negb (truthy s)
  | None => true
  end.

(** [Array.prototype.findIndex]: the first index whose element satisfies
    the predicate, [-1] when there is none. *)
Fixpoint findIndex {A} (p : A -> bool) (l : list A) : Z :=
  match l with
  | [] => -1
  | x :: l' => if p x then 0 else
      let i := findIndex p l' in if i <? 0 then -1 else i + 1
  end.

(** [l[i]] for an integer [i]: [undefined] outside the bounds, a negative
    index included. *)
Definition at_index {A} (l : list A) (i : Z) : option A :=
  if i <? 0 then None else l !! Z.to_nat i.

(** [l.splice(start, deleteCount)], the array that is left.  A negative
    [start] counts from the end of the array. *)
Definition splice {A} (l : list A) (start deleteCount : Z) : list A :=
  let len := Z.of_nat (length l) in
  let from := if start <? 0 then Z.max (len + start) 0 else Z.min start len in
  let count := Z.min (Z.max deleteCount 0) (len - from) in
  take (Z.to_nat from) l ++ drop (Z.to_nat (from + count)) l.

(** ** The credential server *)

Inductive Request : Type :=
| POST_login (username password : string)
| POST_refresh (refresh_token : string)
| POST_logout (refresh_token : string).

(** What [fetch] comes back with.  [D] is the decoded body of a success
    response (the [LdapAuthResponse] of the provider). *)
Inductive Response (D : Type) : Type :=
| Rejected (e : Exn)                 (* the promise rejects *)
| Status_ok (body : option D)        (* response.ok; None: response.json() rejects *)
| Status_error (detail : option string).  (* !response.ok; the [detail] of the body, if any *)

Arguments Rejected {D} e.
Arguments Status_ok {D} body.
Arguments Status_error {D} detail.

Section Runtime.

(** [S] is the session record of the provider, [D] its login response. *)
Context {S D : Type}.

(** The text kept by the secret storage, by what [JSON.parse] makes of it.
    [JSON.stringify] of a list of session records is a text that parses
    back to that list (the records hold strings, booleans and finite
    integers only). *)
Inductive Secret : Type :=
| Blank                     (* the empty string *)
| Unparsable                (* a non-empty text that JSON.parse rejects *)
| Json (sessions : list S). (* a text that JSON.parse reads as this list *)

(** AuthenticationProviderAuthenticationSessionsChangeEvent *)
Record SessionsChangeEvent : Type := {
  added : list S;
  removed : list S;
  changed : list S;
}.

(** Host operations.  The first group are awaited: the method is suspended
    until the host answers.  The second group are synchronous. *)
Inductive Op : Type -> Type :=
| ShowInputBox (prompt : string) (password : bool) : Op (option string)
| ShowErrorMessage (message : string) : Op unit
| Fetch (req : Request) : Op (Response D)
| SecretGet (key : string) : Op (option Secret)
| SecretStore (key : string) (value : Secret) : Op unit
| Yield : Op unit              (* await of a promise of the provider's own *)
| DateNow : Op Z
| Fire (e : SessionsChangeEvent) : Op unit
| ReadRefreshing : Op bool
| WriteRefreshing (b : bool) : Op unit.

Definition awaited {X} (o : Op X) : bool :=
  match o with
  | ShowInputBox _ _ | ShowErrorMessage _ | Fetch _
  | SecretGet _ | SecretStore _ _ | Yield => true
  | DateNow | Fire _ | ReadRefreshing | WriteRefreshing _ => false
  end.

(** Programs: trees of operations. *)
Inductive prog (A : Type) : Type :=
| Ret (a : A)
| Throw (e : Exn)
| Vis {X : Type} (o : Op X) (k : X -> prog A).

Arguments Ret {A} a.
Arguments Throw {A} e.
Arguments Vis {A X} o k.

Fixpoint bind {A B} (p : prog A) (f : A -> prog B) : prog B :=
  match p with
  | Ret a => f a
  | Throw e => Throw e
  | Vis o k => Vis o (fun x => bind (k x) f)
  end.

Definition call {X} (o : Op X) : prog X := Vis o Ret.

(** [try { p } catch (e) { h e }] *)
Fixpoint try_catch {A} (p : prog A) (h : Exn -> prog A) : prog A :=
  match p with
  | Ret a => Ret a
  | Throw e => h e
  | Vis o k => Vis o (fun x => try_catch (k x) h)
  end.

(** [try { p } finally { q }] *)
Fixpoint finally {A} (p : prog A) (q : prog unit) : prog A :=
  match p with
  | Ret a => bind q (fun _ => Ret a)
  | Throw e => bind q (fun _ => Throw e)
  | Vis o k => Vis o (fun x => finally (k x) q)
  end.

(** [await p] for a method [p] of the provider: the caller resumes one
    turn after [p] has settled, with its value or its exception. *)
Fixpoint await {A} (p : prog A) : prog A :=
  match p with
  | Ret a => Vis Yield (fun _ => Ret a)
  | Throw e => Vis Yield (fun _ => Throw e)
  | Vis o k => Vis o (fun x => await (k x))
  end.

(** What the host has seen the provider do, newest first. *)
Inductive Action : Type :=
| Asked (prompt : string) (password : bool)
| Warned (message : string)
| Sent (req : Request)
| Loaded (key : string)
| Saved (key : string) (value : Secret)
| Fired (e : SessionsChangeEvent).

(** The provider's state together with its surroundings: the secret
    storage, the reentrancy flag, the clock, and the answers the user and
    the server are going to give.  [now] is what the next [Date.now()]
    returns and [later] the readings after that one; when [later] is empty
    the clock stands still. *)
Record World : Type := {
  secrets : gmap string Secret;
  isRefreshing : bool;
  now : Z;
  later : list Z;
  inputs : list (option string);
  replies : list (Response D);
  log : list Action;
}.

Definition record (a : Action) (w : World) : World :=
  {| secrets := secrets w; isRefreshing := isRefreshing w; now := now w;
     later := later w; inputs := inputs w; replies := replies w;
     log := a :: log w |}.

Definition next_input (w : World) : World :=
  {| secrets := secrets w; isRefreshing := isRefreshing w; now := now w;
     later := later w; inputs := tail (inputs w); replies := replies w;
     log := log w |}.

Definition next_reply (w : World) : World :=
  {| secrets := secrets w; isRefreshing := isRefreshing w; now := now w;
     later := later w; inputs := inputs w; replies := tail (replies w);
     log := log w |}.

(** Time moves on between two readings of the clock, when the surroundings
    say so. *)
Definition advance (w : World) : World :=
  {| secrets := secrets w; isRefreshing := isRefreshing w;
     now := match later w with t :: _ => t | [] => now w end;
     later := tail (later w); inputs := inputs w; replies := replies w;
     log := log w |}.

Definition put_secret (key : string) (v : Secret) (w : World) : World :=
  {| secrets := <[key := v]> (secrets w); isRefreshing := isRefreshing w;
     now := now w; later := later w; inputs := inputs w;
     replies := replies w; log := log w |}.

Definition set_refreshing (b : bool) (w : World) : World :=
  {| secrets := secrets w; isRefreshing := b; now := now w;
     later := later w; inputs := inputs w; replies := replies w;
     log := log w |}.

(** One operation.  An input box nobody answers is dismissed; a request
    nobody answers ends as a transport failure (the timer of the provider
    aborts it). *)
Definition perform {X} (o : Op X) (w : World) : X * World :=
  match o in Op X return X * World with
  | ShowInputBox prompt password =>
      (match inputs w with x :: _ => x | [] => None end,
       record (Asked prompt password) (next_input w))
  | ShowErrorMessage m => (tt, record (Warned m) w)
  | Fetch req =>
      (match replies w with r :: _ => r | [] => Rejected (FetchError "aborted") end,
       record (Sent req) (next_reply w))
  | SecretGet key => (secrets w !! key, record (Loaded key) w)
  | SecretStore key v => (tt, record (Saved key v) (put_secret key v w))
  | Yield => (tt, w)
  | DateNow => (now w, advance w)
  | Fire e => (tt, record (Fired e) w)
  | ReadRefreshing => (isRefreshing w, w)
  | WriteRefreshing b => (tt, set_refreshing b w)
  end.

Inductive Outcome (A : Type) : Type :=
| Returned (a : A)
| Thrown (e : Exn).

Arguments Returned {A} a.
Arguments Thrown {A} e.

(** A method run to its end. *)
Fixpoint run {A} (p : prog A) (w : World) : Outcome A * World :=
  match p with
  | Ret a => (Returned a, w)
  | Throw e => (Thrown e, w)
  | Vis o k => let '(x, w') := perform o w in run (k x) w'
  end.

(** A method run up to its next suspension point. *)
Fixpoint settle {A} (p : prog A) (w : World) : prog A * World :=
  match p with
  | Vis o k =>
      if awaited o then (p, w)
      else let '(x, w') := perform o w in settle (k x) w'
  | _ => (p, w)
  end.

(** A suspended method gets its answer and runs on to the next
    suspension point. *)
Definition resume {A} (t : prog A * World) : prog A * World :=
  match t.1 with
  | Vis o k => let '(x, w') := perform o t.2 in settle (k x) w'
  | _ => t
  end.

Definition pending {A} (p : prog A) : bool :=
  match p with
  | Vis _ _ => true
  | _ => false
  end.

(** [await fetch(...)]: a rejected promise is thrown at the caller. *)
Definition fetch (req : Request) : prog (Response D) :=
  bind (call (Fetch req)) (fun response =>
    match response with
    | Rejected e => Throw e
    | _ => Ret response
    end).

(** [await response.json()] on a success response. *)
Definition json (body : option D) : prog D :=
  bind (call Yield) (fun _ =>
    match body with
    | Some data => Ret data
    | None => Throw (SyntaxError "Unexpected end of JSON input")
    end).

(** [if (!x) throw new Error(message)], then [x] is a non-empty string. *)
Definition required (x : option string) (message : string) : prog string :=
  match x with
  | Some s => if truthy s then Ret s else Throw (Error message)
  | None => Throw (Error message)
  end.

(** The body of the success response the next request is going to get, if
    it is going to get one. *)
Definition next_grant (rs : list (Response D)) : option D :=
  match rs with
  | Status_ok (Some data) :: _ => Some data
  | _ => None
  end.

(** The server calls among the actions, newest first. *)
Definition requests (l : list Action) : list Request :=
  omap (fun a => match a with Sent r => Some r | _ => None end) l.

(** The events among the actions, newest first. *)
Definition events (l : list Action) : list SessionsChangeEvent :=
  omap (fun a => match a with Fired e => Some e | _ => None end) l.

End Runtime.

Arguments Secret : clear implicits.
Arguments SessionsChangeEvent : clear implicits.
Arguments Op : clear implicits.
Arguments prog : clear implicits.
Arguments Action : clear implicits.
Arguments World : clear implicits.
Arguments Ret {S D A} a.
Arguments Throw {S D A} e.
Arguments Vis {S D A X} o k.
Arguments Returned {A} a.
Arguments Thrown {A} e.
Arguments Blank {S}.
Arguments Unparsable {S}.
Arguments Json {S} sessions.

Notation "x <- p ;; q" := (bind p (fun x => q))
  (at level 100, p at next level, right associativity, only parsing).
Notation "p ;;; q" := (bind p (fun _ => q))
  (at level 100, right associativity, only parsing).

(** The key of the session list in the secret storage. *)
Definition SESSIONS_KEY : string := "ldap.sessions".

(** ** The provider with the client-side expiry policy *)

Module LdapAuthProvider.

Definition ACCESS_TOKEN_TTL_MINUTES : Z := 10.

Record Account : Type := {
  account_id : string;
  label : string;
}.

Record ContinueAuthenticationSession : Type := {
  id : string;
  accessToken : string;
  account : Account;
  scopes : list string;
  refreshToken : string;
  expiresAt : Z;
  loginNeeded : bool;
}.

Record LdapUser : Type := {
  username : string;
  email : string;
  displayName : string;
  groups : list string;
}.

Record LdapTokens : Type := {
  tokens_accessToken : string;
  tokens_refreshToken : option string;
}.

Record LdapAuthResponse : Type := {
  success : bool;
  user : LdapUser;
  tokens : LdapTokens;
}.

Abbreviation Session := ContinueAuthenticationSession.
Abbreviation M := (prog Session LdapAuthResponse).
Abbreviation world := (World Session LdapAuthResponse).

(** What [_refreshSession] resolves to. *)
Record Refreshed : Type := {
  new_accessToken : string;
  new_refreshToken : string;
  new_expiresAt : Z;
}.

(** [{...session, accessToken, refreshToken, expiresAt}] *)
Definition with_tokens (session : Session) (refreshed : Refreshed) : Session :=
  {| id := id session;
     accessToken := new_accessToken refreshed;
     account := account session;
     scopes := scopes session;
     refreshToken := new_refreshToken refreshed;
     expiresAt := new_expiresAt refreshed;
     loginNeeded := loginNeeded session |}.

Definition storeSessions (sessions : list Session) : M unit :=
  call (SecretStore SESSIONS_KEY (Json sessions)).

Definition getSessions : M (list Session) :=
  data <- call (SecretGet SESSIONS_KEY) ;;
  match data with
  | None | Some Blank => Ret []
  | Some Unparsable => Throw (SyntaxError "Unexpected token")
  | Some (Json sessions) => Ret sessions
  end.

Definition maxAttempts : Z := 3.

(** The exception the model raises when the fuel of [login_loop] is spent;
    [createSession] gives the loop more fuel than it can use. *)
Definition out_of_fuel : Exn := Error "(loop fuel spent)".

(** The session record [createSession] builds from the entered user name,
    the body [data] of the login response and the reading [t] of the
    clock. *)
Definition new_session (username : string) (data : LdapAuthResponse) (t : Z)
    : Session :=
  {| id := username;
     account := {| account_id := username;
                   label := or_else (Some (displayName (user data))) username |};
     scopes := [];
     accessToken := tokens_accessToken (tokens data);
     refreshToken := or_else (tokens_refreshToken (tokens data)) "";
     expiresAt := t + ACCESS_TOKEN_TTL_MINUTES * 60 * 1000;
     loginNeeded := false |}.

(** The body of the [while] loop of [createSession].  [None] stands for
    [attempts++; continue], [Some session] for [return session]. *)
Definition login_attempt (attempts : Z) : M (option Session) :=
  username <- call (ShowInputBox
    (if attempts =? 0 then "Enter LDAP username"
     else "Invalid credentials. Enter LDAP username") false) ;;
  username <- required username "Username required" ;;
  password <- call (ShowInputBox "Enter LDAP password" true) ;;
  password <- required password "Password required" ;;
  try_catch
    (response <- fetch (POST_login username password) ;;
     match response with
     | Status_ok body =>
         data <- json body ;;
         t <- call DateNow ;;
         let session := new_session username data t in
         await (storeSessions [session]) ;;;
         Ret (Some session)
     | Status_error detail =>
         call Yield ;;;
         let errorMessage := or_else detail "Invalid credentials" in
         if attempts <? maxAttempts - 1 then
           call (ShowErrorMessage
                   ("Login failed: " +:+ errorMessage +:+ ". Please try again.")) ;;;
           Ret None
         else Throw (Error errorMessage)
     | Rejected e => Throw e
     end)
    (fun error =>
       if attempts <? maxAttempts - 1 then
         call (ShowErrorMessage "Connection failed. Please try again.") ;;;
         Ret None
       else Throw error).

Fixpoint login_loop (fuel : nat) (attempts : Z) : M Session :=
  match fuel with
  | O => Throw out_of_fuel
  | Datatypes.S fuel' =>
      if attempts <? maxAttempts then
        r <- login_attempt attempts ;;
        match r with
        | Some session => Ret session
        | None => login_loop fuel' (attempts + 1)
        end
      else Throw (Error "Maximum login attempts exceeded")
  end.

Definition createSession (scopes : list string) : M Session :=
  login_loop 4 0.

Definition removeSession (sessionId : string) : M unit :=
  sessions <- await getSessions ;;
  let sessionIdx := findIndex (fun s => String.eqb (id s) sessionId) sessions in
  match at_index sessions sessionIdx with
  | None => Ret tt
  | Some session =>
      let sessions := splice sessions sessionIdx 1 in
      await (storeSessions sessions) ;;;
      try_catch
        (if truthy (refreshToken session) then
           fetch (POST_logout (refreshToken session)) ;;; Ret tt
         else Ret tt)
        (fun error => Ret tt) ;;;
      call (Fire {| added := []; removed := [session]; changed := [] |})
  end.

(** The object [_refreshSession] resolves to, for the body [data] of the
    response and the reading [t] of the clock. *)
Definition refreshed_tokens (data : LdapAuthResponse) (refreshToken : string)
    (t : Z) : Refreshed :=
  {| new_accessToken := tokens_accessToken (tokens data);
     new_refreshToken := or_else (tokens_refreshToken (tokens data)) refreshToken;
     new_expiresAt := t + ACCESS_TOKEN_TTL_MINUTES * 60 * 1000 |}.

(** The timer that aborts the request is part of the answer of [fetch]
    here, so the [finally] that clears it has nothing left to do. *)
Definition _refreshSession (refreshToken : string) : M Refreshed :=
  finally
    (response <- fetch (POST_refresh refreshToken) ;;
     match response with
     | Status_ok body =>
         data <- json body ;;
         t <- call DateNow ;;
         Ret (refreshed_tokens data refreshToken t)
     | Status_error detail =>
         call Yield ;;;
         Throw (Error (or_else detail "Token refresh failed"))
     | Rejected e => Throw e
     end)
    (Ret tt).

(** The [for] loop of [refreshSessions]; [refreshedSessions] is the array
    being filled. *)
Fixpoint sweep (sessions refreshedSessions : list Session) : M (list Session) :=
  match sessions with
  | [] => Ret refreshedSessions
  | session :: rest =>
      t <- call DateNow ;;
      if expiresAt session >? t then sweep rest (refreshedSessions ++ [session])
      else
        refreshedSessions <-
          try_catch
            (refreshed <- await (_refreshSession (refreshToken session)) ;;
             Ret (refreshedSessions ++ [with_tokens session refreshed]))
            (fun error => Ret (refreshedSessions ++ [session])) ;;
        sweep rest refreshedSessions
  end.

(** The [try] block of [refreshSessions]. *)
Definition sweep_all : M unit :=
  sessions <- await getSessions ;;
  refreshedSessions <- sweep sessions [] ;;
  if 0 <? Z.of_nat (length refreshedSessions)
  then await (storeSessions refreshedSessions)
  else Ret tt.

Definition refreshSessions : M unit :=
  busy <- call ReadRefreshing ;;
  if busy then Ret tt
  else
    call (WriteRefreshing true) ;;;
    finally sweep_all (call (WriteRefreshing false)).

(** The world in which the loop of a sweep called in [w] starts: the flag
    is up and the list has been loaded. *)
Definition sweep_start (w : world) : world :=
  record (Loaded SESSIONS_KEY) (set_refreshing true w).

Definition handleTokenExpired : M bool :=
  try_catch
    (sessions <- await getSessions ;;
     match sessions with
     | [] => Ret false
     | session :: _ =>
         try_catch
           (refreshed <- await (_refreshSession (refreshToken session)) ;;
            let refreshedSession := with_tokens session refreshed in
            await (storeSessions [refreshedSession]) ;;;
            call (Fire {| added := []; removed := [];
                          changed := [refreshedSession] |}) ;;;
            Ret true)
           (fun refreshError =>
              await (storeSessions []) ;;;
              call (Fire {| added := []; removed := [session]; changed := [] |}) ;;;
              Ret false)
     end)
    (fun error => Ret false).

End LdapAuthProvider.

(** ** The provider under [extensions/vscode/src/stubs] *)

Module StubProvider.

Record Account : Type := {
  account_id : string;
  label : string;
}.

(** [ContinueAuthenticationSession extends AuthenticationSession]: the
    first four fields are those of the host's [AuthenticationSession]. *)
Record ContinueAuthenticationSession : Type := {
  id : string;
  accessToken : string;
  account : Account;
  scopes : list string;
  refreshToken : string;
  expiresInMs : Z;
  loginNeeded : bool;
}.

Record LdapUser : Type := {
  username : string;
  email : string;
  displayName : string;
  groups : list string;
}.

Record LdapTokens : Type := {
  tokens_accessToken : string;
  tokens_refreshToken : option string;
  tokens_expiresIn : Z;
}.

Record LdapAuthResponse : Type := {
  success : bool;
  user : LdapUser;
  tokens : LdapTokens;
}.

Abbreviation Session := ContinueAuthenticationSession.
Abbreviation M := (prog Session LdapAuthResponse).
Abbreviation world := (World Session LdapAuthResponse).

Record Refreshed : Type := {
  new_accessToken : string;
  new_refreshToken : string;
  new_expiresInMs : Z;
}.

(** [{...session, accessToken, refreshToken, expiresInMs}] *)
Definition with_tokens (session : Session) (refreshed : Refreshed) : Session :=
  {| id := id session;
     accessToken := new_accessToken refreshed;
     account := account session;
     scopes := scopes session;
     refreshToken := new_refreshToken refreshed;
     expiresInMs := new_expiresInMs refreshed;
     loginNeeded := loginNeeded session |}.

Definition storeSessions (sessions : list Session) : M unit :=
  call (SecretStore SESSIONS_KEY (Json sessions)).

Definition getSessions : M (list Session) :=
  data <- call (SecretGet SESSIONS_KEY) ;;
  match data with
  | None | Some Blank => Ret []
  | Some Unparsable => Throw (SyntaxError "Unexpected token")
  | Some (Json sessions) => Ret sessions
  end.

(** The session record [createSession] builds from the entered user name
    and the body [data] of the login response. *)
Definition new_session (username : string) (data : LdapAuthResponse) : Session :=
  {| id := username;
     account := {| account_id := username;
                   label := or_else (Some (displayName (user data))) username |};
     scopes := [];
     accessToken := tokens_accessToken (tokens data);
     refreshToken := or_else (tokens_refreshToken (tokens data)) "";
     expiresInMs := tokens_expiresIn (tokens data) * 1000;
     loginNeeded := false |}.

Definition createSession (scopes : list string) : M Session :=
  username <- call (ShowInputBox "Enter LDAP username" false) ;;
  password <- call (ShowInputBox "Enter LDAP password" true) ;;
  if falsy username || falsy password
  then Throw (Error "Username and password required")
  else
    let username := default "" username in
    let password := default "" password in
    response <- fetch (POST_login username password) ;;
    match response with
    | Status_ok body =>
        data <- json body ;;
        let session := new_session username data in
        await (storeSessions [session]) ;;;
        Ret session
    | _ => Throw (Error "LDAP authentication failed")
    end.

Definition removeSession (sessionId : string) : M unit :=
  sessions <- await getSessions ;;
  let sessionIdx := findIndex (fun s => String.eqb (id s) sessionId) sessions in
  let session := at_index sessions sessionIdx in
  let sessions := splice sessions sessionIdx 1 in
  await (storeSessions sessions) ;;;
  match session with
  | Some session =>
      call (Fire {| added := []; removed := [session]; changed := [] |})
  | None => Ret tt
  end.

(** The object [_refreshSession] resolves to, for the body [data] of the
    response. *)
Definition refreshed_tokens (data : LdapAuthResponse) (refreshToken : string)
    : Refreshed :=
  {| new_accessToken := tokens_accessToken (tokens data);
     new_refreshToken := or_else (tokens_refreshToken (tokens data)) refreshToken;
     new_expiresInMs := tokens_expiresIn (tokens data) * 1000 |}.

Definition _refreshSession (refreshToken : string) : M Refreshed :=
  response <- fetch (POST_refresh refreshToken) ;;
  match response with
  | Status_ok body =>
      data <- json body ;;
      Ret (refreshed_tokens data refreshToken)
  | _ => Throw (Error "Token refresh failed")
  end.

(** The [for] loop of [refreshSessions]: no expiry test, and nothing is
    pushed when the refresh throws. *)
Fixpoint sweep (sessions refreshedSessions : list Session) : M (list Session) :=
  match sessions with
  | [] => Ret refreshedSessions
  | session :: rest =>
      refreshedSessions <-
        try_catch
          (refreshed <- await (_refreshSession (refreshToken session)) ;;
           Ret (refreshedSessions ++ [with_tokens session refreshed]))
          (fun error => Ret refreshedSessions) ;;
      sweep rest refreshedSessions
  end.

(** The [try] block of [refreshSessions]. *)
Definition sweep_all : M unit :=
  sessions <- await getSessions ;;
  refreshedSessions <- sweep sessions [] ;;
  if 0 <? Z.of_nat (length refreshedSessions)
  then await (storeSessions refreshedSessions)
  else Ret tt.

Definition refreshSessions : M unit :=
  busy <- call ReadRefreshing ;;
  if busy then Ret tt
  else
    call (WriteRefreshing true) ;;;
    finally sweep_all (call (WriteRefreshing false)).

End StubProvider.

(** ** The token accessor, [stubs/auth.ts] *)

Module Auth.

(** The host's [AuthenticationSession], as far as the accessor reads it. *)
Record AuthenticationSession : Type := {
  session_id : string;
  accessToken : string;
}.

(** [AuthenticationGetSessionOptions]; an option that is left out is
    [false]. *)
Record GetSessionOptions : Type := {
  createIfNone : bool;
  silent : bool;
}.

(** The host, as far as the accessor talks to it: the session its registry
    holds for each provider, the session an interactive sign-in would end
    with ([None]: the user gives up), the settings by section and name, and
    the sign-ins the registry has started, newest first. *)
Record Host : Type := {
  registry : gmap string AuthenticationSession;
  sign_in : gmap string AuthenticationSession;
  settings : gmap string (gmap string string);
  started : list string;
}.

Definition start_sign_in (providerId : string) (h : Host) : Host :=
  {| registry := registry h; sign_in := sign_in h; settings := settings h;
     started := providerId :: started h |}.

(** [vscode.authentication.getSession(providerId, scopes, options)], after
    the host's documentation: the session of the registry when there is
    one; otherwise an interactive sign-in when [createIfNone] is set, and
    [undefined] when it is not. *)
Definition authentication_getSession (providerId : string)
    (scopes : list string) (options : GetSessionOptions) (h : Host)
    : Outcome (option AuthenticationSession) * Host :=
  match registry h !! providerId with
  | Some session => (Returned (Some session), h)
  | None =>
      if createIfNone options then
        match sign_in h !! providerId with
        | Some session => (Returned (Some session), start_sign_in providerId h)
        | None => (Thrown (Error "User did not consent to login."),
                   start_sign_in providerId h)
        end
      else (Returned None, h)
  end.

(** [workspace.getConfiguration(section).get(name, null)] *)
Definition configuration_get (section name : string) (h : Host) : option string :=
  settings h !! section ≫= (fun s => s !! name).

Section Accessor.

(** The constant of [core/control-plane/env], a file the accessor imports. *)
Variable EXTENSION_NAME : string.

Definition getUserToken (h : Host) : Outcome string * Host :=
  match authentication_getSession "ldap" []
          {| createIfNone := false; silent := false |} h with
  | (Thrown e, h) => (Thrown e, h)
  | (Returned (Some session), h) => (Returned (accessToken session), h)
  | (Returned None, h) =>
      let userToken := configuration_get EXTENSION_NAME "userToken" h in
      match userToken with
      | Some token =>
          if truthy token then (Returned token, h)
          else (Thrown (Error "No authentication token found"), h)
      | None => (Thrown (Error "No authentication token found"), h)
      end
  end.

End Accessor.

End Auth.

(** ** The reentrancy flag *)

Section Flag.

Context {S D : Type}.

Definition writes_flag {X} (o : Op S D X) : bool :=
  match o with
  | WriteRefreshing _ => true
  | _ => false
  end.

(** Programs that never write [_isRefreshing]. *)
Inductive flagless {A} : prog S D A -> Prop :=
| flagless_Ret a : flagless (Ret a)
| flagless_Throw e : flagless (Throw e)
| flagless_Vis X (o : Op S D X) k :
    writes_flag o = false -> (forall x, flagless (k x)) -> flagless (Vis o k).

(** [this._isRefreshing = false], the [finally] block of a sweep. *)
Definition release : prog S D unit := call (WriteRefreshing false).

(** The rest of a sweep that holds the flag: some program that leaves the
    flag alone, inside [try { ... } finally { this._isRefreshing = false }]. *)
Definition sweeping {A} (p : prog S D A) : Prop :=
  exists body, flagless body /\ p = finally body release.

(** A sweep that holds the flag either is suspended with the flag still up,
    or has ended and lowered it. *)
Definition flag_invariant {A} (t : prog S D A * World S D) : Prop :=
  (pending t.1 = true /\ sweeping t.1 /\ isRefreshing t.2 = true) \/
  (pending t.1 = false /\ isRefreshing t.2 = false).

End Flag.

(** ** Sample sessions and worlds *)

Module Scenario.

Import LdapAuthProvider.

Definition alice : Session :=
  {| id := "alice"; accessToken := "T1";
     account := {| account_id := "alice"; label := "Alice" |};
     scopes := []; refreshToken := "R1"; expiresAt := 1000;
     loginNeeded := false |}.

Definition bob : Session :=
  {| id := "bob"; accessToken := "T2";
     account := {| account_id := "bob"; label := "Bob" |};
     scopes := []; refreshToken := "R2"; expiresAt := 9000;
     loginNeeded := false |}.

(** A session the server issued no refresh token for. *)
Definition carol : Session :=
  {| id := "carol"; accessToken := "T3";
     account := {| account_id := "carol"; label := "carol" |};
     scopes := []; refreshToken := ""; expiresAt := 1000;
     loginNeeded := false |}.

Definition granted (access : string) (refresh : option string) : LdapAuthResponse :=
  {| success := true;
     user := {| username := "alice"; email := "alice@example.org";
                displayName := "Alice"; groups := [] |};
     tokens := {| tokens_accessToken := access; tokens_refreshToken := refresh |} |}.

(** An idle provider at time [5000]. *)
Definition idle (stored : option (Secret Session)) (answers : list (option string))
    (server : list (Response LdapAuthResponse)) : world :=
  {| secrets := match stored with
                | Some v => {[ SESSIONS_KEY := v ]}
                | None => ∅
                end;
     isRefreshing := false; now := 5000; later := [6000; 7000];
     inputs := answers; replies := server; log := [] |}.

End Scenario.

Module StubScenario.

Import StubProvider.

Definition alice : Session :=
  {| id := "alice"; accessToken := "T1";
     account := {| account_id := "alice"; label := "Alice" |};
     scopes := []; refreshToken := "R1"; expiresInMs := 3600000;
     loginNeeded := false |}.

Definition bob : Session :=
  {| id := "bob"; accessToken := "T2";
     account := {| account_id := "bob"; label := "Bob" |};
     scopes := []; refreshToken := "R2"; expiresInMs := 3600000;
     loginNeeded := false |}.

Definition granted (access : string) (refresh : option string) (expiresIn : Z)
    : LdapAuthResponse :=
  {| success := true;
     user := {| username := "alice"; email := "alice@example.org";
                displayName := "Alice"; groups := [] |};
     tokens := {| tokens_accessToken := access; tokens_refreshToken := refresh;
                  tokens_expiresIn := expiresIn |} |}.

(** An idle provider at time [5000]. *)
Definition idle (stored : option (Secret Session)) (answers : list (option string))
    (server : list (Response LdapAuthResponse)) : world :=
  {| secrets := match stored with
                | Some v => {[ SESSIONS_KEY := v ]}
                | None => ∅
                end;
     isRefreshing := false; now := 5000; later := [6000; 7000];
     inputs := answers; replies := server; log := [] |}.

End StubScenario.

Module AuthScenario.

Import Auth.

Definition session : AuthenticationSession :=
  {| session_id := "alice"; accessToken := "T1" |}.

(** A host with no session for any provider, where an interactive sign-in
    would succeed, and with a token in the settings of the extension. *)
Definition signed_out : Host :=
  {| registry := ∅;
     sign_in := {[ "ldap" := session ]};
     settings := {[ "continue" := {[ "userToken" := "K1" ]} ]};
     started := [] |}.

End AuthScenario.

(** ** The periodic timer *)

Section Timer.

Context {S D : Type}.

(** What the interval set up by the constructor calls every ten minutes:
    [() => { void this.refreshSessions(); }]. *)
Variable callback : prog S D unit.

(** What can happen next on the event loop: the interval fires, or the
    [i]-th of the suspended calls gets its answer. *)
Inductive Turn : Type :=
| Tick
| Wake (i : nat).

(** The calls of the callback that are suspended, oldest first, and the
    world they share. *)
Record Machine : Type := {
  tasks : list (prog S D unit);
  state : World S D;
}.

(** The interval fires: the callback runs up to its first suspension point.
    Its promise is dropped ([void]), so a call that has ended, either way,
    leaves nothing behind. *)
Definition tick (m : Machine) : Machine :=
  let t := settle callback (state m) in
  {| tasks := if pending t.1 then tasks m ++ [t.1] else tasks m;
     state := t.2 |}.

Definition wake (i : nat) (m : Machine) : Machine :=
  match tasks m !! i with
  | Some p =>
      let t := resume (p, state m) in
      {| tasks := if pending t.1 then <[i := t.1]> (tasks m)
                  else delete i (tasks m);
         state := t.2 |}
  | None => m
  end.

Definition turn (m : Machine) (e : Turn) : Machine :=
  match e with
  | Tick => tick m
  | Wake i => wake i m
  end.

Definition play (es : list Turn) (m : Machine) : Machine := foldl turn m es.

(** At most one call is in flight, and the flag is up exactly while one
    is. *)
Definition one_sweep (m : Machine) : Prop :=
  (tasks m = [] /\ isRefreshing (state m) = false) \/
  (exists p, tasks m = [p] /\ pending p = true /\ sweeping p /\
             isRefreshing (state m) = true).

End Timer.

Arguments Machine : clear implicits.

(** The answer the next input box is going to get. *)
Definition next_answer {S D} (w : World S D) : option string :=
  match inputs w with
  | x :: _ => x
  | [] => None
  end.

(** ** Session information for the control plane *)

Module ControlPlane.

Record Account : Type := {
  account_id : string;
  label : string;
}.

(** The host's [AuthenticationSession]. *)
Record AuthenticationSession : Type := {
  id : string;
  accessToken : string;
  account : Account;
  scopes : list string;
}.

Record ControlPlaneSessionInfo : Type := {
  AUTH_TYPE : string;
  info_accessToken : string;
  info_account : Account;
}.

Record GetSessionOptions : Type := {
  silent : bool;
  createIfNone : bool;
}.

(** The host's registry, as in [Auth.Host]: the session it holds for each
    provider, the session an interactive sign-in would end with ([None]:
    the user gives up), and the sign-ins started, newest first. *)
Record Host : Type := {
  registry : gmap string AuthenticationSession;
  sign_in : gmap string AuthenticationSession;
  started : list string;
}.

Definition start_sign_in (providerId : string) (h : Host) : Host :=
  {| registry := registry h; sign_in := sign_in h;
     started := providerId :: started h |}.

(** [authentication.getSession(providerId, scopes, options)], after the
    host's documentation. *)
Definition authentication_getSession (providerId : string)
    (scopes : list string) (options : GetSessionOptions) (h : Host)
    : Outcome (option AuthenticationSession) * Host :=
  match registry h !! providerId with
  | Some session => (Returned (Some session), h)
  | None =>
      if createIfNone options then
        match sign_in h !! providerId with
        | Some session => (Returned (Some session), start_sign_in providerId h)
        | None => (Thrown (Error "User did not consent to login."),
                   start_sign_in providerId h)
        end
      else (Returned None, h)
  end.

(** The object [getLdapSessionInfo] returns for a session. *)
Definition session_info (session : AuthenticationSession)
    : ControlPlaneSessionInfo :=
  {| AUTH_TYPE := "ldap";
     info_accessToken := accessToken session;
     info_account := {| account_id := account_id (account session);
                        label := label (account session) |} |}.

(** [getLdapSessionInfo], the same in both provider files.  [None] is
    [undefined]. *)
Definition getLdapSessionInfo (silent useOnboarding : bool) (h : Host)
    : option ControlPlaneSessionInfo * Host :=
  match authentication_getSession "ldap" []
          {| silent := silent; createIfNone := negb silent |} h with
  | (Returned (Some session), h) => (Some (session_info session), h)
  | (Returned None, h) => (None, h)
  | (Thrown error, h) => (None, h)
  end.

End ControlPlane.

Module ControlPlaneScenario.

Import ControlPlane.

Definition session : AuthenticationSession :=
  {| id := "alice"; accessToken := "T1";
     account := {| account_id := "alice"; label := "Alice" |};
     scopes := [] |}.

(** No session yet; a sign-in would succeed. *)
Definition signed_out : Host :=
  {| registry := ∅; sign_in := {[ "ldap" := session ]}; started := [] |}.

(** No session yet, and the user would give the sign-in up. *)
Definition reluctant : Host :=
  {| registry := ∅; sign_in := ∅; started := [] |}.

End ControlPlaneScenario.

(** ** What a sweep keeps of a session *)

Section Identity.

Import LdapAuthProvider.

(** The fields a refresh leaves alone. *)
Definition same_identity (s s' : Session) : Prop :=
  id s' = id s /\ account s' = account s /\ scopes s' = scopes s /\
  loginNeeded s' = loginNeeded s.

End Identity.

Section StubIdentity.

Import StubProvider.

Definition stub_same_identity (s s' : Session) : Prop :=
  id s' = id s /\ account s' = account s /\ scopes s' = scopes s /\
  loginNeeded s' = loginNeeded s.

End StubIdentity.

(** ** The single-account store *)

(** The session list under the key holds at most one record, when it can
    be read as a list. *)
Definition at_most_one {S} (store : gmap string (Secret S)) : Prop :=
  match store !! SESSIONS_KEY with
  | Some (Json l) => (length l <= 1)%nat
  | _ => True
  end.

(** * Properties *)

(** ** Running composed programs *)

Section RunLemmas.

Context {S D : Type}.

Implicit Types w : World S D.

Lemma run_bind {A B} (p : prog S D A) (f : A -> prog S D B) w :
  run (bind p f) w =
  match run p w with
  | (Returned a, w') => run (f a) w'
  | (Thrown e, w') => (Thrown e, w')
  end.
Proof.
  revert w. induction p as [a|e|X o k IH]; intros w; simpl; try reflexivity.
  destruct (perform o w) as [x w']. apply IH.
Qed.

Lemma run_try_catch {A} (p : prog S D A) (h : Exn -> prog S D A) w :
  run (try_catch p h) w =
  match run p w with
  | (Returned a, w') => (Returned a, w')
  | (Thrown e, w') => run (h e) w'
  end.
Proof.
  revert w. induction p as [a|e|X o k IH]; intros w; simpl; try reflexivity.
  destruct (perform o w) as [x w']. apply IH.
Qed.

Lemma run_finally {A} (p : prog S D A) (q : prog S D unit) w :
  run (finally p q) w =
  match run p w with
  | (r, w') =>
      match run q w' with
      | (Returned _, w'') => (r, w'')
      | (Thrown e, w'') => (Thrown e, w'')
      end
  end.
Proof.
  revert w. induction p as [a|e|X o k IH]; intros w; simpl.
  - rewrite run_bind. destruct (run q w) as [[[]|e] w']; reflexivity.
  - rewrite run_bind. destruct (run q w) as [[[]|e'] w']; reflexivity.
  - destruct (perform o w) as [x w']. apply IH.
Qed.

Lemma run_await {A} (p : prog S D A) w : run (await p) w = run p w.
Proof.
  revert w. induction p as [a|e|X o k IH]; intros w; simpl; try reflexivity.
  destruct (perform o w) as [x w']. apply IH.
Qed.

(** Suspending a method and resuming it later does not change where it
    ends. *)
Lemma run_settle {A} (p : prog S D A) w :
  run (settle p w).1 (settle p w).2 = run p w.
Proof.
  revert w. induction p as [a|e|X o k IH]; intros w; simpl; try reflexivity.
  destruct (awaited o) eqn:Ho; simpl.
  - reflexivity.
  - destruct (perform o w) as [x w']. apply IH.
Qed.

Lemma run_resume {A} (t : prog S D A * World S D) :
  run (resume t).1 (resume t).2 = run t.1 t.2.
Proof.
  destruct t as [p w]. unfold resume. simpl.
  destruct p as [a|e|X o k]; simpl; try reflexivity.
  destruct (perform o w) as [x w']. apply run_settle.
Qed.

Lemma run_resume_n {A} (n : nat) (t : prog S D A * World S D) :
  run (Nat.iter n resume t).1 (Nat.iter n resume t).2 = run t.1 t.2.
Proof.
  induction n as [|n IH]; simpl; [reflexivity|].
  rewrite run_resume. apply IH.
Qed.

End RunLemmas.

(** ** The reentrancy flag *)

Section FlagLemmas.

Context {S D : Type}.

Implicit Types w : World S D.

Lemma flagless_bind {A B} (p : prog S D A) (f : A -> prog S D B) :
  flagless p -> (forall a, flagless (f a)) -> flagless (bind p f).
Proof.
  intros Hp Hf. induction Hp; simpl; auto using @flagless.
Qed.

Lemma flagless_try_catch {A} (p : prog S D A) (h : Exn -> prog S D A) :
  flagless p -> (forall e, flagless (h e)) -> flagless (try_catch p h).
Proof.
  intros Hp Hh. induction Hp; simpl; auto using @flagless.
Qed.

Lemma flagless_finally {A} (p : prog S D A) (q : prog S D unit) :
  flagless p -> flagless q -> flagless (finally p q).
Proof.
  intros Hp Hq. induction Hp; simpl.
  - apply flagless_bind; auto using @flagless.
  - apply flagless_bind; auto using @flagless.
  - constructor; auto.
Qed.

Lemma flagless_await {A} (p : prog S D A) : flagless p -> flagless (await p).
Proof.
  intros Hp. induction Hp; simpl; repeat constructor; auto.
Qed.

Lemma flagless_call {X} (o : Op S D X) : writes_flag o = false -> flagless (call o).
Proof. intros Ho. constructor; [exact Ho | intros x; constructor]. Qed.

Lemma flagless_fetch req : flagless (@fetch S D req).
Proof.
  apply flagless_bind; [apply flagless_call; reflexivity|].
  intros [e|b|d]; constructor.
Qed.

Lemma flagless_json body : flagless (@json S D body).
Proof.
  apply flagless_bind; [apply flagless_call; reflexivity|].
  intros _. destruct body; constructor.
Qed.

Lemma perform_keeps_flag {X} (o : Op S D X) w :
  writes_flag o = false -> isRefreshing (perform o w).2 = isRefreshing w.
Proof. destruct o; simpl; intros Ho; try reflexivity. discriminate. Qed.

Lemma settle_sweeping {A} (body : prog S D A) w :
  flagless body -> isRefreshing w = true ->
  flag_invariant (settle (finally body release) w).
Proof.
  intros Hb. revert w. induction Hb as [a|e|X o k Ho Hk IH]; intros w Hw.
  - right. simpl. auto.
  - right. simpl. auto.
  - simpl. destruct (awaited o) eqn:Haw.
    + left. simpl. split; [reflexivity|]. split; [|exact Hw].
      exists (Vis o k). split; [constructor; assumption | reflexivity].
    + pose proof (perform_keeps_flag o w Ho) as Hflag.
      destruct (perform o w) as [x w']. simpl in Hflag.
      apply IH. congruence.
Qed.

Lemma resume_flag_invariant {A} (t : prog S D A * World S D) :
  flag_invariant t -> flag_invariant (resume t).
Proof.
  destruct t as [p w]. unfold flag_invariant at 1. simpl.
  intros [(Hp & (body & Hb & ->) & Hw)|(Hp & Hw)].
  - destruct Hb as [a|e|X o k Ho Hk]; [right; split; reflexivity ..|].
    unfold resume. simpl.
    pose proof (perform_keeps_flag o w Ho) as Hflag.
    destruct (perform o w) as [x w']. simpl in Hflag.
    apply settle_sweeping; [apply Hk | congruence].
  - right. unfold resume. simpl in *. destruct p; simpl in *; try discriminate; auto.
Qed.

Lemma resume_n_flag_invariant {A} n (t : prog S D A * World S D) :
  flag_invariant t -> flag_invariant (Nat.iter n resume t).
Proof.
  intros Ht. induction n as [|n IH]; simpl; [exact Ht|].
  apply resume_flag_invariant, IH.
Qed.

End FlagLemmas.

(** ** The provider with the client-side expiry policy *)

Section ProviderFlag.

Import LdapAuthProvider.

Implicit Types w : world.

Lemma flagless_getSessions : flagless getSessions.
Proof.
  apply flagless_bind; [apply flagless_call; reflexivity|].
  intros [[| |l]|]; constructor.
Qed.

Lemma flagless_storeSessions l : flagless (storeSessions l).
Proof. apply flagless_call. reflexivity. Qed.

Lemma flagless_refreshSession tok : flagless (_refreshSession tok).
Proof.
  apply flagless_finally; [|constructor].
  apply flagless_bind; [apply flagless_fetch|].
  intros [e|body|detail].
  - constructor.
  - apply flagless_bind; [apply flagless_json|]. intros data.
    apply flagless_bind; [apply flagless_call; reflexivity|]. intros t.
    constructor.
  - apply flagless_bind; [apply flagless_call; reflexivity|]. intros _.
    constructor.
Qed.

Lemma sweep_cons session rest acc :
  sweep (session :: rest) acc =
  bind (call DateNow) (fun t =>
    if expiresAt session >? t then sweep rest (acc ++ [session])
    else
      bind
        (try_catch
           (bind (await (_refreshSession (refreshToken session)))
              (fun refreshed => Ret (acc ++ [with_tokens session refreshed])))
           (fun error => Ret (acc ++ [session])))
        (fun acc' => sweep rest acc')).
Proof. reflexivity. Qed.

Lemma flagless_sweep l acc : flagless (sweep l acc).
Proof.
  revert acc. induction l as [|s l IH]; intros acc.
  - constructor.
  - rewrite sweep_cons.
    apply flagless_bind; [apply flagless_call; reflexivity|]. intros t.
    destruct (expiresAt s >? t); [apply IH|].
    apply flagless_bind; [|intros acc'; apply IH].
    apply flagless_try_catch; [|intros e; constructor].
    apply flagless_bind; [apply flagless_await, flagless_refreshSession|].
    intros r. constructor.
Qed.

Lemma flagless_sweep_all : flagless sweep_all.
Proof.
  apply flagless_bind; [apply flagless_await, flagless_getSessions|].
  intros l. apply flagless_bind; [apply flagless_sweep|]. intros acc.
  destruct (0 <? Z.of_nat (length acc)).
  - apply flagless_await, flagless_storeSessions.
  - constructor.
Qed.

Lemma refreshSessions_busy w :
  isRefreshing w = true ->
  settle refreshSessions w = (Ret tt, w) /\ run refreshSessions w = (Returned tt, w).
Proof.
  intros Hw. unfold refreshSessions. simpl. rewrite Hw. split; reflexivity.
Qed.

Lemma refreshSessions_idle w :
  isRefreshing w = false ->
  settle refreshSessions w = settle (finally sweep_all release) (set_refreshing true w).
Proof.
  intros Hw. unfold refreshSessions. simpl. rewrite Hw. reflexivity.
Qed.

Lemma run_refreshSessions w :
  run refreshSessions w =
  if isRefreshing w then (Returned tt, w)
  else (fst (run sweep_all (set_refreshing true w)),
        set_refreshing false (snd (run sweep_all (set_refreshing true w)))).
Proof.
  unfold refreshSessions. rewrite run_bind. simpl (run (call _) _).
  destruct (isRefreshing w); [reflexivity|].
  rewrite run_bind. simpl (run (call _) _). cbv beta iota. rewrite run_finally.
  destruct (run sweep_all _) as [r w']. reflexivity.
Qed.

(** C2: [refreshSessions] is guarded by the reentrancy flag.  Called while
    the flag is up it returns at once and the world is as it was: nothing
    loaded, nothing sent.  Called while the flag is down, the flag is up at
    every suspension point of the sweep, so a second call arriving at any of
    them returns at once, and the first sweep then ends exactly where it
    would have ended alone: one set of refresh calls.  However the sweep
    ends, by returning or by throwing, the flag is down afterwards, and the
    next call goes on to load the store. *)
Theorem refreshSessions_reentrancy_guard (w : world) :
  (isRefreshing w = true ->
     settle refreshSessions w = (Ret tt, w) /\
     run refreshSessions w = (Returned tt, w)) /\
  (isRefreshing w = false ->
     (forall n,
        let first := Nat.iter n resume (settle refreshSessions w) in
        let second := settle refreshSessions first.2 in
        pending first.1 = true ->
        isRefreshing first.2 = true /\
        second = (Ret tt, first.2) /\
        run first.1 second.2 = run refreshSessions w) /\
     isRefreshing (run refreshSessions w).2 = false /\
     exists k,
       settle refreshSessions (run refreshSessions w).2 =
       (Vis (SecretGet SESSIONS_KEY) k,
        set_refreshing true (run refreshSessions w).2)).
Proof.
  split; [apply refreshSessions_busy|].
  intros Hw. split; [|split].
  - intros n first second Hpending.
    assert (Hinv : flag_invariant first).
    { apply resume_n_flag_invariant. rewrite refreshSessions_idle by exact Hw.
      apply settle_sweeping; [apply flagless_sweep_all | reflexivity]. }
    destruct Hinv as [(_ & _ & Hup)|(Hdone & _)]; [|congruence].
    destruct (refreshSessions_busy first.2 Hup) as [Hsecond _].
    split; [exact Hup|]. split; [exact Hsecond|].
    subst second. rewrite Hsecond. cbn [snd]. subst first.
    rewrite run_resume_n. apply run_settle.
  - rewrite run_refreshSessions, Hw. reflexivity.
  - assert (Hdown : isRefreshing (run refreshSessions w).2 = false).
    { rewrite run_refreshSessions, Hw. reflexivity. }
    eexists. rewrite refreshSessions_idle by exact Hdown. reflexivity.
Qed.

End ProviderFlag.

Section ProviderSweep.

Import LdapAuthProvider.

Implicit Types w : world.

(** What one refresh call does: one request, and a fresh set of tokens
    stamped with the clock when the server grants them. *)
Lemma run_refreshSession tok w :
  run (_refreshSession tok) w =
  let w1 := record (Sent (POST_refresh tok)) (next_reply w) in
  match replies w with
  | Status_ok (Some data) :: _ =>
      (Returned (refreshed_tokens data tok (now w)), advance w1)
  | Status_ok None :: _ => (Thrown (SyntaxError "Unexpected end of JSON input"), w1)
  | Status_error detail :: _ => (Thrown (Error (or_else detail "Token refresh failed")), w1)
  | Rejected e :: _ => (Thrown e, w1)
  | [] => (Thrown (FetchError "aborted"), w1)
  end.
Proof.
  unfold _refreshSession. rewrite run_finally. simpl.
  destruct (replies w) as [|[e|[data|]|detail] rs]; reflexivity.
Qed.

Lemma run_refreshSession_fails tok w :
  next_grant (replies w) = None ->
  exists e, run (_refreshSession tok) w =
            (Thrown e, record (Sent (POST_refresh tok)) (next_reply w)).
Proof.
  intros H. rewrite run_refreshSession.
  destruct (replies w) as [|[e|[data|]|detail] rs]; simpl in *;
    try discriminate; eauto.
Qed.

(** One turn of the loop. *)
Lemma run_sweep_cons s rest acc w :
  run (sweep (s :: rest) acc) w =
  if expiresAt s >? now w then run (sweep rest (acc ++ [s])) (advance w)
  else
    let w1 := record (Sent (POST_refresh (refreshToken s))) (next_reply (advance w)) in
    match next_grant (replies w) with
    | Some data =>
        run (sweep rest
               (acc ++ [with_tokens s
                          (refreshed_tokens data (refreshToken s) (now (advance w)))]))
            (advance w1)
    | None => run (sweep rest (acc ++ [s])) w1
    end.
Proof.
  rewrite sweep_cons, run_bind. simpl (run (call _) _). cbv beta iota.
  destruct (expiresAt s >? now w); [reflexivity|].
  rewrite run_bind, run_try_catch, run_bind, run_await, run_refreshSession.
  change (replies (advance w)) with (replies w).
  destruct (replies w) as [|[e|[data|]|detail] rs]; reflexivity.
Qed.

Lemma run_sweep_app l1 l2 acc w :
  run (sweep (l1 ++ l2) acc) w =
  match run (sweep l1 acc) w with
  | (Returned acc1, w1) => run (sweep l2 acc1) w1
  | (Thrown e, w1) => (Thrown e, w1)
  end.
Proof.
  revert acc w. induction l1 as [|s l1 IH]; intros acc w; [reflexivity|].
  rewrite <- app_comm_cons, !run_sweep_cons.
  destruct (expiresAt s >? now w); [apply IH|].
  cbv zeta. destruct (next_grant (replies w)); apply IH.
Qed.

(** The loop never throws, pushes one record for every record it visits,
    and leaves the store and the flag alone. *)
Lemma run_sweep_total l acc w :
  exists acc' w',
    run (sweep l acc) w = (Returned (acc ++ acc'), w') /\
    length acc' = length l /\
    secrets w' = secrets w /\ isRefreshing w' = isRefreshing w.
Proof.
  revert acc w. induction l as [|s l IH]; intros acc w.
  - exists [], w. rewrite app_nil_r. auto.
  - rewrite run_sweep_cons.
    assert (Hstep : forall x w1, secrets w1 = secrets w ->
              isRefreshing w1 = isRefreshing w ->
              exists acc' w',
                run (sweep l (acc ++ [x])) w1 = (Returned (acc ++ acc'), w') /\
                length acc' = length (s :: l) /\
                secrets w' = secrets w /\ isRefreshing w' = isRefreshing w).
    { intros x w1 Hs Hf.
      destruct (IH (acc ++ [x]) w1) as (acc' & w' & Hrun & Hlen & Hs' & Hf').
      exists (x :: acc'), w'. rewrite Hrun, <- app_assoc. simpl.
      repeat split; congruence. }
    destruct (expiresAt s >? now w); [apply Hstep; reflexivity|].
    cbv zeta. destruct (next_grant (replies w)); apply Hstep; reflexivity.
Qed.

(** The [try] block of a sweep over a stored list. *)
Lemma run_sweep_all l w :
  secrets w !! SESSIONS_KEY = Some (Json l) ->
  run sweep_all w =
  match run (sweep l []) (record (Loaded SESSIONS_KEY) w) with
  | (Returned acc, w') =>
      if 0 <? Z.of_nat (length acc)
      then (Returned tt, record (Saved SESSIONS_KEY (Json acc))
                           (put_secret SESSIONS_KEY (Json acc) w'))
      else (Returned tt, w')
  | (Thrown e, w') => (Thrown e, w')
  end.
Proof.
  intros Hl. unfold sweep_all. rewrite run_bind, run_await.
  unfold getSessions. rewrite run_bind. simpl (run (call _) _).
  cbv beta iota. rewrite Hl. simpl (run (Ret _) _). cbv beta iota.
  rewrite run_bind.
  destruct (run (sweep l []) _) as [[acc|e] w']; [|reflexivity].
  destruct (0 <? Z.of_nat (length acc)); [|reflexivity].
  rewrite run_await. reflexivity.
Qed.

(** The record pushed for the record at one place of the stored list is
    the record at that place of the list the sweep saves. *)
Lemma sweep_persists w l1 s l2 acc1 w1 x w2 :
  isRefreshing w = false ->
  secrets w !! SESSIONS_KEY = Some (Json (l1 ++ s :: l2)) ->
  run (sweep l1 []) (sweep_start w) = (Returned acc1, w1) ->
  run (sweep (s :: l2) acc1) w1 = run (sweep l2 (acc1 ++ [x])) w2 ->
  exists l' w',
    run refreshSessions w = (Returned tt, w') /\
    secrets w' !! SESSIONS_KEY = Some (Json l') /\
    l' !! length l1 = Some x /\
    length l' = length (l1 ++ s :: l2).
Proof.
  intros Hw Hl Hrun Hturn.
  destruct (run_sweep_total l1 [] (sweep_start w)) as (a1 & w1' & Hrun' & Hlen1 & _).
  rewrite Hrun in Hrun'. injection Hrun' as Ha Hw1. subst w1'.
  simpl in Ha. subst acc1.
  rewrite run_refreshSessions, Hw.
  rewrite (run_sweep_all (l1 ++ s :: l2)) by exact Hl.
  fold (sweep_start w). rewrite run_sweep_app, Hrun, Hturn.
  destruct (run_sweep_total l2 (a1 ++ [x]) w2) as (a2 & w3 & Hrun2 & Hlen2 & _).
  rewrite Hrun2.
  replace (0 <? Z.of_nat (length ((a1 ++ [x]) ++ a2))) with true
    by (symmetry; apply Z.ltb_lt; rewrite !length_app; simpl; lia).
  eexists _, _. split; [reflexivity|]. simpl.
  split; [apply lookup_insert_eq|]. split.
  - rewrite <- app_assoc, <- Hlen1. simpl. apply list_lookup_middle. reflexivity.
  - rewrite !length_app. simpl. lia.
Qed.

(** The provider keeps a record whose refresh fails: when the sweep comes
    to a record that has expired and the server does not grant the
    refresh, the list the sweep persists has that very record at the same
    place. *)
Lemma refreshSessions_keeps_failed w l1 s l2 acc1 w1 :
  isRefreshing w = false ->
  secrets w !! SESSIONS_KEY = Some (Json (l1 ++ s :: l2)) ->
  run (sweep l1 []) (sweep_start w) = (Returned acc1, w1) ->
  expiresAt s <= now w1 ->
  next_grant (replies w1) = None ->
  exists l' w',
    run refreshSessions w = (Returned tt, w') /\
    secrets w' !! SESSIONS_KEY = Some (Json l') /\
    l' !! length l1 = Some s /\
    length l' = length (l1 ++ s :: l2).
Proof.
  intros Hw Hl Hrun Hexp Hfail.
  apply (sweep_persists w l1 s l2 acc1 w1 s
           (record (Sent (POST_refresh (refreshToken s))) (next_reply (advance w1))));
    try assumption.
  rewrite run_sweep_cons.
  replace (expiresAt s >? now w1) with false
    by (symmetry; rewrite Z.gtb_ltb; apply Z.ltb_ge; lia).
  cbv zeta. rewrite Hfail. reflexivity.
Qed.

End ProviderSweep.

(** ** The provider under [stubs] *)

Section StubSweep.

Import StubProvider.

Implicit Types w : world.

Lemma stub_run_refreshSession tok w :
  run (_refreshSession tok) w =
  let w1 := record (Sent (POST_refresh tok)) (next_reply w) in
  match replies w with
  | Status_ok (Some data) :: _ => (Returned (refreshed_tokens data tok), w1)
  | Status_ok None :: _ => (Thrown (SyntaxError "Unexpected end of JSON input"), w1)
  | Status_error detail :: _ => (Thrown (Error "Token refresh failed"), w1)
  | Rejected e :: _ => (Thrown e, w1)
  | [] => (Thrown (FetchError "aborted"), w1)
  end.
Proof.
  unfold _refreshSession. simpl.
  destruct (replies w) as [|[e|[data|]|detail] rs]; reflexivity.
Qed.

Lemma stub_sweep_cons session rest acc :
  sweep (session :: rest) acc =
  bind
    (try_catch
       (bind (await (_refreshSession (refreshToken session)))
          (fun refreshed => Ret (acc ++ [with_tokens session refreshed])))
       (fun error => Ret acc))
    (fun acc' => sweep rest acc').
Proof. reflexivity. Qed.

(** One turn of the loop: a request whatever the record says, and nothing
    pushed unless the server grants the refresh. *)
Lemma stub_run_sweep_cons s rest acc w :
  run (sweep (s :: rest) acc) w =
  let w1 := record (Sent (POST_refresh (refreshToken s))) (next_reply w) in
  match next_grant (replies w) with
  | Some data =>
      run (sweep rest (acc ++ [with_tokens s (refreshed_tokens data (refreshToken s))])) w1
  | None => run (sweep rest acc) w1
  end.
Proof.
  rewrite stub_sweep_cons.
  rewrite run_bind, run_try_catch, run_bind, run_await, stub_run_refreshSession.
  destruct (replies w) as [|[e|[data|]|detail] rs]; reflexivity.
Qed.

(** Every stored record is sent to the refresh endpoint. *)
Lemma stub_sweep_requests l acc w :
  requests (log (run (sweep l acc) w).2) =
  rev (map (fun s => POST_refresh (refreshToken s)) l) ++ requests (log w).
Proof.
  revert acc w. induction l as [|s l IH]; intros acc w; [reflexivity|].
  rewrite stub_run_sweep_cons. cbv zeta.
  destruct (next_grant (replies w)); rewrite IH; simpl;
    rewrite <- app_assoc; reflexivity.
Qed.

End StubSweep.

(** ** Arrays *)

Section Arrays.

Context {A : Type}.

Implicit Types (p : A -> bool) (l : list A).

Lemma findIndex_ge p l : -1 <= findIndex p l.
Proof.
  induction l as [|x l IH]; simpl; [lia|].
  destruct (p x); [lia|]. destruct (findIndex p l <? 0) eqn:E; lia.
Qed.

Lemma findIndex_none p l :
  Forall (fun x => p x = false) l -> findIndex p l = -1.
Proof.
  induction 1 as [|x l Hx _ IH]; simpl; [reflexivity|].
  rewrite Hx, IH. reflexivity.
Qed.

Lemma findIndex_first p l1 x l2 :
  Forall (fun y => p y = false) l1 -> p x = true ->
  findIndex p (l1 ++ x :: l2) = Z.of_nat (length l1).
Proof.
  intros Hl1 Hx. induction Hl1 as [|y l1 Hy _ IH]; simpl.
  - rewrite Hx. reflexivity.
  - rewrite Hy, IH.
    destruct (Z.of_nat (length l1) <? 0) eqn:E; [apply Z.ltb_lt in E|]; lia.
Qed.

Lemma at_index_none l : at_index l (-1) = None.
Proof. reflexivity. Qed.

Lemma at_index_middle l1 x l2 :
  at_index (l1 ++ x :: l2) (Z.of_nat (length l1)) = Some x.
Proof.
  unfold at_index.
  destruct (Z.of_nat (length l1) <? 0) eqn:E; [apply Z.ltb_lt in E; lia|].
  rewrite Nat2Z.id. apply list_lookup_middle. reflexivity.
Qed.

Lemma splice_middle l1 x l2 :
  splice (l1 ++ x :: l2) (Z.of_nat (length l1)) 1 = l1 ++ l2.
Proof.
  unfold splice. rewrite length_app. simpl length.
  destruct (Z.of_nat (length l1) <? 0) eqn:E; [apply Z.ltb_lt in E; lia|].
  rewrite Z.min_l by lia.
  replace (Z.max 1 0) with 1 by lia.
  rewrite Z.min_l by lia.
  rewrite Nat2Z.id.
  replace (Z.to_nat (Z.of_nat (length l1) + 1)) with (length l1 + 1)%nat by lia.
  rewrite take_app_length.
  rewrite drop_app_add'; [|reflexivity]. reflexivity.
Qed.

(** [splice(-1, 1)] takes the last element away. *)
Lemma splice_last l x : splice (l ++ [x]) (-1) 1 = l.
Proof.
  unfold splice. rewrite length_app. simpl length.
  change (-1 <? 0) with true. cbv iota.
  rewrite Z.max_l by lia. replace (Z.max 1 0) with 1 by lia.
  rewrite Z.min_l by lia.
  replace (Z.to_nat (Z.of_nat (length l + 1) + -1)) with (length l) by lia.
  replace (Z.to_nat (Z.of_nat (length l + 1) + -1 + 1)) with (length l + 1)%nat by lia.
  rewrite take_app_length.
  rewrite drop_app_add'; [|reflexivity]. simpl. apply app_nil_r.
Qed.

End Arrays.

(** ** Removal *)

Section ProviderRemoval.

Import LdapAuthProvider.

Implicit Types w : world.

Lemma run_getSessions w :
  run getSessions w =
  (match secrets w !! SESSIONS_KEY with
   | None | Some Blank => Returned []
   | Some Unparsable => Thrown (SyntaxError "Unexpected token")
   | Some (Json sessions) => Returned sessions
   end, record (Loaded SESSIONS_KEY) w).
Proof.
  unfold getSessions. simpl.
  destruct (secrets w !! SESSIONS_KEY) as [[| |l]|]; reflexivity.
Qed.

Lemma id_differs (l : list Session) sid :
  Forall (fun x => id x ≠ sid) l ->
  Forall (fun x => String.eqb (id x) sid = false) l.
Proof.
  intros H. eapply Forall_impl; [exact H|].
  intros x Hx. apply String.eqb_neq, Hx.
Qed.

(** The provider leaves everything alone when the id is not in the stored
    list: the list is loaded, and that is all. *)
Lemma removeSession_unknown w l sid :
  (run getSessions w).1 = Returned l ->
  Forall (fun x => id x ≠ sid) l ->
  run (removeSession sid) w = (Returned tt, record (Loaded SESSIONS_KEY) w).
Proof.
  intros Hl Hsid. unfold removeSession.
  rewrite run_getSessions in Hl. cbn [fst] in Hl.
  rewrite run_bind, run_await, run_getSessions, Hl. cbv beta iota zeta.
  rewrite (findIndex_none _ l) by (apply id_differs, Hsid).
  reflexivity.
Qed.

(** C8: [removeSession] of an id that is in the stored list takes the first
    record with that id out of the list and saves the list, then calls the
    logout endpoint if the record has a refresh token, then fires [removed]
    with the record.  Whatever the server answers to the logout, if it
    answers at all, the method returns normally and the event is fired. *)
Theorem removeSession_known w l1 s l2 sid :
  secrets w !! SESSIONS_KEY = Some (Json (l1 ++ s :: l2)) ->
  id s = sid ->
  Forall (fun x => id x ≠ sid) l1 ->
  let out := run (removeSession sid) w in
  out.1 = Returned tt /\
  secrets out.2 !! SESSIONS_KEY = Some (Json (l1 ++ l2)) /\
  log out.2 =
    Fired {| added := []; removed := [s]; changed := [] |}
    :: (if truthy (refreshToken s) then [Sent (POST_logout (refreshToken s))] else [])
    ++ Saved SESSIONS_KEY (Json (l1 ++ l2)) :: Loaded SESSIONS_KEY :: log w.
Proof.
  intros Hl Hs Hl1 out. subst out. unfold removeSession.
  rewrite run_bind, run_await, run_getSessions, Hl. cbv beta iota zeta.
  rewrite (findIndex_first _ l1 s l2)
    by (try apply id_differs; try apply String.eqb_eq; assumption).
  rewrite at_index_middle, splice_middle.
  rewrite run_bind, run_await. simpl (run (storeSessions _) _). cbv beta iota.
  rewrite run_bind, run_try_catch.
  destruct (truthy (refreshToken s)).
  - simpl. destruct (replies w) as [|[e|b|d] rs]; simpl;
      (split; [reflexivity|]); (split; [apply lookup_insert_eq | reflexivity]).
  - simpl. split; [reflexivity|]. split; [apply lookup_insert_eq | reflexivity].
Qed.

End ProviderRemoval.

Section StubRemoval.

Import StubProvider.

Implicit Types w : world.

Lemma stub_run_getSessions w :
  run getSessions w =
  (match secrets w !! SESSIONS_KEY with
   | None | Some Blank => Returned []
   | Some Unparsable => Thrown (SyntaxError "Unexpected token")
   | Some (Json sessions) => Returned sessions
   end, record (Loaded SESSIONS_KEY) w).
Proof.
  unfold getSessions. simpl.
  destruct (secrets w !! SESSIONS_KEY) as [[| |l]|]; reflexivity.
Qed.

(** The stub with an id that is not in the stored list: [findIndex] gives
    [-1], [splice(-1, 1)] takes the last record away, and the shorter list
    is saved.  No event is fired. *)
Lemma stub_removeSession_unknown w l x sid :
  secrets w !! SESSIONS_KEY = Some (Json (l ++ [x])) ->
  Forall (fun y => id y ≠ sid) (l ++ [x]) ->
  run (removeSession sid) w =
  (Returned tt,
   record (Saved SESSIONS_KEY (Json l))
     (put_secret SESSIONS_KEY (Json l) (record (Loaded SESSIONS_KEY) w))).
Proof.
  intros Hl Hsid. unfold removeSession.
  rewrite run_bind, run_await, stub_run_getSessions, Hl. cbv beta iota zeta.
  rewrite (findIndex_none _ (l ++ [x])).
  2:{ eapply Forall_impl; [exact Hsid|]. intros y Hy. apply String.eqb_neq, Hy. }
  rewrite at_index_none, splice_last.
  rewrite run_bind, run_await. reflexivity.
Qed.

End StubRemoval.

(** ** Recovery after a rejected token, and unreadable stores *)

Section ProviderRecovery.

Import LdapAuthProvider.

Implicit Types w : world.

(** C3: [handleTokenExpired] with an empty stored list returns [false]
    having only loaded the list.  With a stored list that begins with [s]
    it sends one refresh request with the token of [s]; when the server
    grants it, the refreshed record is saved as the only record of the
    store, one event is fired with that record as [changed], and the result
    is [true]; when it does not, the empty list is saved, one event is fired
    with [s] as [removed], and the result is [false].  The refreshed record
    is [s] with the access token of the response, the refresh token of the
    response (that of [s] when the response has none, or an empty one) and
    an expiry ten minutes after the reading of the clock; its id, account,
    scopes and [loginNeeded] are those of [s]. *)
Theorem handleTokenExpired_outcomes w :
  let out := run handleTokenExpired w in
  ((run getSessions w).1 = Returned [] ->
     out = (Returned false, record (Loaded SESSIONS_KEY) w) /\
     requests (log out.2) = requests (log w)) /\
  (forall s rest,
     secrets w !! SESSIONS_KEY = Some (Json (s :: rest)) ->
     match next_grant (replies w) with
     | Some data =>
         let s' :=
           {| id := id s;
              accessToken := tokens_accessToken (tokens data);
              account := account s;
              scopes := scopes s;
              refreshToken :=
                match tokens_refreshToken (tokens data) with
                | Some (String c t) => String c t
                | _ => refreshToken s
                end;
              expiresAt := now w + 600000;
              loginNeeded := loginNeeded s |} in
         out.1 = Returned true /\
         secrets out.2 !! SESSIONS_KEY = Some (Json [s']) /\
         log out.2 =
           [Fired {| added := []; removed := []; changed := [s'] |};
            Saved SESSIONS_KEY (Json [s']);
            Sent (POST_refresh (refreshToken s));
            Loaded SESSIONS_KEY] ++ log w
     | None =>
         out.1 = Returned false /\
         secrets out.2 !! SESSIONS_KEY = Some (Json []) /\
         log out.2 =
           [Fired {| added := []; removed := [s]; changed := [] |};
            Saved SESSIONS_KEY (Json []);
            Sent (POST_refresh (refreshToken s));
            Loaded SESSIONS_KEY] ++ log w
     end).
Proof.
  intros out. subst out. unfold handleTokenExpired.
  rewrite run_try_catch, run_bind, run_await, run_getSessions.
  split.
  - intros Hempty. cbn [fst] in Hempty. rewrite Hempty. split; reflexivity.
  - intros s rest Hl. rewrite Hl. cbv beta iota.
    rewrite run_try_catch, run_bind, run_await, run_refreshSession.
    change (replies (record (Loaded SESSIONS_KEY) w)) with (replies w).
    destruct (replies w) as [|[e|[data|]|detail] rs]; simpl;
      try ((split; [reflexivity|]);
           (split; [apply lookup_insert_eq | reflexivity]); fail).
    unfold with_tokens, refreshed_tokens, or_else. simpl.
    destruct (tokens_refreshToken (tokens data)) as [[|c t]|]; simpl;
      (split; [reflexivity|]); (split; [apply lookup_insert_eq | reflexivity]).
Qed.

End ProviderRecovery.

Section UnreadableStore.

Lemma stub_run_refreshSessions (w : StubProvider.world) :
  run StubProvider.refreshSessions w =
  if isRefreshing w then (Returned tt, w)
  else (fst (run StubProvider.sweep_all (set_refreshing true w)),
        set_refreshing false (snd (run StubProvider.sweep_all (set_refreshing true w)))).
Proof.
  unfold StubProvider.refreshSessions. rewrite run_bind. simpl (run (call _) _).
  destruct (isRefreshing w); [reflexivity|].
  rewrite run_bind. simpl (run (call _) _). cbv beta iota. rewrite run_finally.
  destruct (run StubProvider.sweep_all _) as [r w']. reflexivity.
Qed.

(** C9, as the code has it: [getSessions] returns the empty list when
    nothing, or the empty text, is stored under the key.  A stored text that
    cannot be parsed makes [getSessions] throw the parser's error, in both
    providers.  Of its callers only [handleTokenExpired] absorbs the error,
    answering [false] as for an empty list; [refreshSessions] (the flag
    lowered again) and [removeSession] pass it on, having done no more than
    load the text. *)
Theorem getSessions_unreadable (w : LdapAuthProvider.world)
    (v : StubProvider.world) (sessionId : string) :
  let corrupt : Exn := SyntaxError "Unexpected token" in
  ((secrets w !! SESSIONS_KEY = None \/ secrets w !! SESSIONS_KEY = Some Blank) ->
     run LdapAuthProvider.getSessions w = (Returned [], record (Loaded SESSIONS_KEY) w)) /\
  ((secrets v !! SESSIONS_KEY = None \/ secrets v !! SESSIONS_KEY = Some Blank) ->
     run StubProvider.getSessions v = (Returned [], record (Loaded SESSIONS_KEY) v)) /\
  (secrets w !! SESSIONS_KEY = Some Unparsable ->
     run LdapAuthProvider.getSessions w =
       (Thrown corrupt, record (Loaded SESSIONS_KEY) w) /\
     run LdapAuthProvider.handleTokenExpired w =
       (Returned false, record (Loaded SESSIONS_KEY) w) /\
     run (LdapAuthProvider.removeSession sessionId) w =
       (Thrown corrupt, record (Loaded SESSIONS_KEY) w) /\
     (isRefreshing w = false ->
      run LdapAuthProvider.refreshSessions w =
        (Thrown corrupt, record (Loaded SESSIONS_KEY) w))) /\
  (secrets v !! SESSIONS_KEY = Some Unparsable ->
     run StubProvider.getSessions v =
       (Thrown corrupt, record (Loaded SESSIONS_KEY) v) /\
     run (StubProvider.removeSession sessionId) v =
       (Thrown corrupt, record (Loaded SESSIONS_KEY) v) /\
     (isRefreshing v = false ->
      run StubProvider.refreshSessions v =
        (Thrown corrupt, record (Loaded SESSIONS_KEY) v))).
Proof.
  intros corrupt. subst corrupt. split; [|split; [|split]].
  - intros [H|H]; rewrite run_getSessions, H; reflexivity.
  - intros [H|H]; rewrite stub_run_getSessions, H; reflexivity.
  - intros H. split; [|split; [|split]].
    + rewrite run_getSessions, H. reflexivity.
    + unfold LdapAuthProvider.handleTokenExpired.
      rewrite run_try_catch, run_bind, run_await, run_getSessions, H. reflexivity.
    + unfold LdapAuthProvider.removeSession.
      rewrite run_bind, run_await, run_getSessions, H. reflexivity.
    + intros Hidle. rewrite run_refreshSessions, Hidle.
      unfold LdapAuthProvider.sweep_all.
      rewrite run_bind, run_await, run_getSessions.
      change (secrets (set_refreshing true w)) with (secrets w). rewrite H.
      cbn [fst snd]. destruct w; simpl in *. subst. reflexivity.
  - intros H. split; [|split].
    + rewrite stub_run_getSessions, H. reflexivity.
    + unfold StubProvider.removeSession.
      rewrite run_bind, run_await, stub_run_getSessions, H. reflexivity.
    + intros Hidle. rewrite stub_run_refreshSessions, Hidle.
      unfold StubProvider.sweep_all.
      rewrite run_bind, run_await, stub_run_getSessions.
      change (secrets (set_refreshing true v)) with (secrets v). rewrite H.
      cbn [fst snd]. destruct v; simpl in *. subst. reflexivity.
Qed.

End UnreadableStore.

(** ** Interactive login *)

Section ProviderLogin.

Import LdapAuthProvider.

Implicit Types w : world.

(** What one turn of the login loop can end with. *)
Lemma login_attempt_cases a w :
  let out := run (login_attempt a) w in
  match out.1 with
  | Returned (Some session) =>
      exists u p data prompt,
        head (replies w) = Some (Status_ok (Some data)) /\
        session = new_session u data (now w) /\
        inputs w = Some u :: Some p :: inputs out.2 /\
        secrets out.2 = <[SESSIONS_KEY := Json [session]]> (secrets w) /\
        log out.2 =
          Saved SESSIONS_KEY (Json [session]) :: Sent (POST_login u p)
          :: Asked "Enter LDAP password" true :: Asked prompt false :: log w
  | Returned None =>
      a < maxAttempts - 1 /\
      next_grant (replies w) = None /\
      secrets out.2 = secrets w /\ now out.2 = now w /\ later out.2 = later w /\
      replies out.2 = tail (replies w) /\
      inputs out.2 = drop 2 (inputs w) /\
      events (log out.2) = events (log w) /\
      exists req, requests (log out.2) = req :: requests (log w)
  | Thrown e =>
      secrets out.2 = secrets w /\
      events (log out.2) = events (log w) /\
      (requests (log out.2) = requests (log w) \/
       exists req, requests (log out.2) = req :: requests (log w))
  end.
Proof.
  destruct w as [sec fl nw lt ins rs lg]. unfold login_attempt. simpl.
  destruct ins as [|[[|c u]|] ins]; simpl; auto.
  all: destruct ins as [|[[|c' p]|] ins]; simpl; auto.
  all: destruct rs as [|[e|[data|]|detail] rs]; simpl.
  all: try (destruct (a <? maxAttempts - 1) eqn:Ha; simpl;
            [apply Z.ltb_lt in Ha|]; repeat split; eauto; fail).
  all: eexists _, _, _, _; repeat split.
Qed.

Lemma login_loop_step fuel a :
  login_loop (Datatypes.S fuel) a =
  if a <? maxAttempts then
    bind (login_attempt a) (fun r =>
      match r with
      | Some session => Ret session
      | None => login_loop fuel (a + 1)
      end)
  else Throw (Error "Maximum login attempts exceeded").
Proof. reflexivity. Qed.

(** The loop makes no more server calls than there are attempts left. *)
Lemma login_loop_calls fuel a w :
  (length (requests (log (run (login_loop fuel a) w).2))
   <= length (requests (log w)) + Z.to_nat (maxAttempts - a))%nat.
Proof.
  revert a w. induction fuel as [|fuel IH]; intros a w; [simpl; lia|].
  rewrite login_loop_step.
  destruct (a <? maxAttempts) eqn:Ha; [apply Z.ltb_lt in Ha|simpl; lia].
  rewrite run_bind. pose proof (login_attempt_cases a w) as Hcases.
  cbv zeta in Hcases. unfold maxAttempts in *.
  destruct (run (login_attempt a) w) as [[[session|]|e] w1]; simpl in Hcases.
  - destruct Hcases as (u & p & data & prompt & _ & _ & _ & _ & Hlog).
    simpl. rewrite Hlog. simpl. lia.
  - destruct Hcases as (_ & _ & _ & _ & _ & _ & _ & _ & req & Hreq).
    specialize (IH (a + 1) w1). rewrite Hreq in IH. simpl in IH. lia.
  - destruct Hcases as (_ & _ & [Hreq|[req Hreq]]); simpl; rewrite Hreq;
      simpl; lia.
Qed.

(** More fuel than there are attempts left changes nothing. *)
Lemma login_loop_fuel fuel a w :
  (Z.to_nat (maxAttempts - a) < fuel)%nat ->
  run (login_loop fuel a) w =
  run (login_loop (Datatypes.S (Z.to_nat (maxAttempts - a))) a) w.
Proof.
  revert a w. induction fuel as [|fuel IH]; intros a w Hfuel; [lia|].
  rewrite !login_loop_step.
  destruct (a <? maxAttempts) eqn:Ha; [apply Z.ltb_lt in Ha|reflexivity].
  rewrite !run_bind.
  destruct (run (login_attempt a) w) as [[[session|]|e] w1]; try reflexivity.
  replace (Z.to_nat (maxAttempts - a))
    with (Datatypes.S (Z.to_nat (maxAttempts - (a + 1)))) by lia.
  apply IH. lia.
Qed.

(** A login that succeeds, at whichever attempt. *)
Lemma login_loop_success fuel a w session w' :
  run (login_loop fuel a) w = (Returned session, w') ->
  exists u p data prompt older k,
    replies w !! k = Some (Status_ok (Some data)) /\
    inputs w !! (2 * k)%nat = Some (Some u) /\
    session = new_session u data (now w) /\
    secrets w' = <[SESSIONS_KEY := Json [session]]> (secrets w) /\
    events (log w') = events (log w) /\
    log w' =
      Saved SESSIONS_KEY (Json [session]) :: Sent (POST_login u p)
      :: Asked "Enter LDAP password" true :: Asked prompt false :: older.
Proof.
  revert a w. induction fuel as [|fuel IH]; intros a w; [discriminate|].
  rewrite login_loop_step.
  destruct (a <? maxAttempts); [|discriminate].
  rewrite run_bind. pose proof (login_attempt_cases a w) as Hcases.
  cbv zeta in Hcases.
  destruct (run (login_attempt a) w) as [[[s1|]|e] w1]; simpl in Hcases;
    [| |discriminate].
  - intros [= -> ->].
    destruct Hcases as (u & p & data & prompt & Hhead & Hs & Hin & Hsec & Hlog).
    exists u, p, data, prompt, (log w), 0%nat.
    split; [destruct (replies w); [discriminate | exact Hhead]|].
    split; [rewrite Hin; reflexivity|].
    split; [exact Hs|]. split; [exact Hsec|]. split; [|exact Hlog].
    rewrite Hlog. reflexivity.
  - intros Hrun.
    destruct Hcases as (_ & _ & Hsec & Hnow & _ & Hre & Hin & Hev & _).
    destruct (IH _ _ Hrun)
      as (u & p & data & prompt & older & k & Hk & Hu & Hs & Hsec' & Hev' & Hlog).
    exists u, p, data, prompt, older, (Datatypes.S k).
    split; [rewrite Hre in Hk; destruct (replies w); [discriminate | exact Hk]|].
    split.
    { rewrite Hin, lookup_drop in Hu.
      replace (2 * Datatypes.S k)%nat with (2 + 2 * k)%nat by lia. exact Hu. }
    rewrite <- Hnow, <- Hsec, <- Hev. repeat split; assumption.
Qed.

End ProviderLogin.

Section LoginClaims.

Import LdapAuthProvider.

(** C5, as the code has it: [createSession] makes at most three login
    calls, and the fuel of the model's loop is never what stops it.  When
    the user answers every prompt and the first two calls fail (rejected
    credentials, a failed connection, an unreadable body), the third call
    is made.  If the server grants it, the session built from it is
    returned.  If it fails too, [createSession] throws what that third
    failure gives: the server's [detail], or "Invalid credentials", for
    rejected credentials; the transport's or the parser's own error
    otherwise. *)
Theorem createSession_three_attempts (w : world) (scopes : list string) :
  (length (requests (log (run (createSession scopes) w).2))
   <= length (requests (log w)) + 3)%nat /\
  (forall fuel, (4 <= fuel)%nat ->
     run (login_loop fuel 0) w = run (createSession scopes) w) /\
  (forall u1 p1 u2 p2 u3 p3 ins r1 r2 r3 rs,
     inputs w = Some u1 :: Some p1 :: Some u2 :: Some p2
                :: Some u3 :: Some p3 :: ins ->
     Forall (fun x => truthy x = true) [u1; p1; u2; p2; u3; p3] ->
     replies w = r1 :: r2 :: r3 :: rs ->
     next_grant [r1] = None ->
     next_grant [r2] = None ->
     let out := run (createSession scopes) w in
     requests (log out.2) =
       [POST_login u3 p3; POST_login u2 p2; POST_login u1 p1]
       ++ requests (log w) /\
     out.1 =
       match r3 with
       | Status_ok (Some data) => Returned (new_session u3 data (now w))
       | Status_ok None => Thrown (SyntaxError "Unexpected end of JSON input")
       | Status_error detail =>
           Thrown (Error (or_else detail "Invalid credentials"))
       | Rejected e => Thrown e
       end).
Proof.
  split; [apply (login_loop_calls 4 0 w)|].
  split; [intros fuel Hfuel;
          rewrite login_loop_fuel by (unfold maxAttempts; lia); reflexivity|].
  intros u1 p1 u2 p2 u3 p3 ins r1 r2 r3 rs Hin Htruthy Hre Hr1 Hr2 out.
  subst out. destruct w as [sec fl nw lt ins0 rs0 lg]. simpl in Hin, Hre.
  subst ins0 rs0.
  repeat match goal with
         | H : Forall _ (_ :: _) |- _ => apply Forall_cons in H; destruct H
         end.
  destruct u1, p1, u2, p2, u3, p3; try discriminate.
  destruct r1 as [e1|[d1|]|t1]; try discriminate;
    destruct r2 as [e2|[d2|]|t2]; try discriminate;
    destruct r3 as [e3|[d3|]|t3]; split; reflexivity.
Qed.

(** C6, as the code has it.  In the provider with the client-side expiry
    policy, whenever [createSession] returns a session, at whichever
    attempt, that session is built from the user name entered at that
    attempt and from the body of the granted response, with the refresh
    token falling back to the empty string and [expiresAt] ten minutes
    after the reading of the clock; it is saved as the only record of the
    store, and no event is fired.  In the provider under [stubs] the same holds
    except for the expiry: its record carries [expiresInMs], the server's
    [expiresIn] in milliseconds, and the clock plays no part. *)
Theorem createSession_success (w : world) (v : StubProvider.world)
    (scopes : list string) :
  (forall session w',
     run (createSession scopes) w = (Returned session, w') ->
     secrets w' !! SESSIONS_KEY = Some (Json [session]) /\
     events (log w') = events (log w) /\
     expiresAt session = now w + 10 * 60 * 1000 /\
     exists username password data prompt older k,
       replies w !! k = Some (Status_ok (Some data)) /\
       inputs w !! (2 * k)%nat = Some (Some username) /\
       log w' =
         Saved SESSIONS_KEY (Json [session])
         :: Sent (POST_login username password)
         :: Asked "Enter LDAP password" true :: Asked prompt false :: older /\
       id session = username /\
       accessToken session = tokens_accessToken (tokens data) /\
       refreshToken session = or_else (tokens_refreshToken (tokens data)) "") /\
  (forall session v',
     run (StubProvider.createSession scopes) v = (Returned session, v') ->
     secrets v' !! SESSIONS_KEY = Some (Json [session]) /\
     events (log v') = events (log v) /\
     exists username password data rest,
       inputs v = Some username :: Some password :: rest /\
       head (replies v) = Some (Status_ok (Some data)) /\
       StubProvider.id session = username /\
       StubProvider.accessToken session =
         StubProvider.tokens_accessToken (StubProvider.tokens data) /\
       StubProvider.refreshToken session =
         or_else (StubProvider.tokens_refreshToken (StubProvider.tokens data)) "" /\
       StubProvider.expiresInMs session =
         StubProvider.tokens_expiresIn (StubProvider.tokens data) * 1000).
Proof.
  split.
  - intros session w' Hrun.
    destruct (login_loop_success _ _ _ _ _ Hrun)
      as (u & p & data & prompt & older & k & Hk & Hu & Hs & Hsec & Hev & Hlog).
    split; [rewrite Hsec; apply lookup_insert_eq|].
    split; [exact Hev|]. split; [subst session; reflexivity|].
    exists u, p, data, prompt, older, k. subst session.
    repeat split; assumption.
  - intros session v'. destruct v as [sec fl nw lt ins rs lg].
    unfold StubProvider.createSession. simpl.
    destruct ins as [|[u|] [|[p|] ins]]; simpl; try discriminate.
    all: try (destruct u; discriminate).
    destruct u as [|c u], p as [|c' p]; simpl; try discriminate.
    destruct rs as [|[e|[data|]|detail] rs]; simpl; try discriminate.
    intros [= <- <-]. simpl.
    split; [apply lookup_insert_eq|]. split; [reflexivity|].
    eexists _, _, data, _. repeat split.
Qed.

End LoginClaims.

(** ** The expiry test of the sweep *)

Section ExpiryGate.

Import LdapAuthProvider.

Implicit Types w : world.

Lemma advance_still w :
  later w = [] ->
  now (advance w) = now w /\ later (advance w) = [].
Proof. intros H. unfold advance. simpl. rewrite H. auto. Qed.

(** With a clock that stands still during the sweep, the requests of the
    loop are the refresh requests for the records that have expired, in
    the order of the list, and a record that has not expired is pushed as
    it is. *)
Lemma sweep_still_clock l acc w :
  later w = [] ->
  let out := run (sweep l acc) w in
  requests (log out.2) =
    rev (map (fun s => POST_refresh (refreshToken s))
           (filter (fun s => expiresAt s <= now w) l))
    ++ requests (log w) /\
  exists acc',
    out.1 = Returned (acc ++ acc') /\
    Forall2 (fun s s' => expiresAt s > now w -> s' = s) l acc'.
Proof.
  revert acc w. induction l as [|s l IH]; intros acc w Hstill out; subst out.
  - split; [reflexivity|]. exists []. rewrite app_nil_r. split; constructor.
  - destruct (advance_still w Hstill) as [Hnow Hlater].
    assert (Hstep : forall x w1,
              now w1 = now w -> later w1 = [] ->
              (expiresAt s > now w -> x = s) ->
              exists acc',
                (run (sweep l (acc ++ [x])) w1).1 = Returned (acc ++ acc') /\
                Forall2 (fun s s' => expiresAt s > now w -> s' = s) (s :: l) acc').
    { intros x w1 Hn Hl Hx.
      destruct (IH (acc ++ [x]) w1 Hl) as [_ (acc' & Hrun & Hall)].
      exists (x :: acc'). rewrite Hrun, <- app_assoc. split; [reflexivity|].
      constructor; [exact Hx | rewrite <- Hn; exact Hall]. }
    rewrite run_sweep_cons.
    destruct (expiresAt s >? now w) eqn:Hgt.
    + apply Z.gtb_lt in Hgt.
      rewrite filter_cons_False by lia.
      destruct (IH (acc ++ [s]) (advance w) Hlater) as [Hreq _].
      rewrite Hreq, Hnow. split; [reflexivity|].
      apply Hstep; auto.
    + rewrite Z.gtb_ltb in Hgt. apply Z.ltb_ge in Hgt.
      rewrite filter_cons_True by lia. simpl map. simpl rev.
      rewrite <- app_assoc. cbv zeta.
      destruct (next_grant (replies w)) as [data|].
      * match goal with |- context [run _ ?w1] =>
          destruct (IH (acc ++ [with_tokens s
                      (refreshed_tokens data (refreshToken s) (now (advance w)))])
                      w1) as [Hreq _]; [exact (proj2 (advance_still _ Hlater))|];
          rewrite Hreq;
          replace (now w1) with (now w)
            by (symmetry; etransitivity;
                [exact (proj1 (advance_still _ Hlater)) | exact Hnow])
        end.
        split; [reflexivity|].
        apply Hstep; [| |intros; lia].
        -- etransitivity; [exact (proj1 (advance_still _ Hlater)) | exact Hnow].
        -- exact (proj2 (advance_still _ Hlater)).
      * match goal with |- context [run _ ?w1] =>
          destruct (IH (acc ++ [s]) w1) as [Hreq _]; [exact Hlater|];
          rewrite Hreq; replace (now w1) with (now w) by (symmetry; exact Hnow)
        end.
        split; [reflexivity|].
        apply Hstep; auto.
Qed.

(** C4, as the code has it.  In the provider with the client-side expiry
    policy the sweep reads the clock when it comes to a record.  A record
    whose [expiresAt] is later than that reading costs no request and is
    at its place, unchanged, in the list the sweep saves; a record whose
    [expiresAt] is not later costs exactly one refresh request, with its
    refresh token.  With a clock that stands still the requests of a sweep
    are therefore the refresh requests for the expired records and no
    others.  The provider under [stubs] has no expiry test: its sweep sends
    a refresh request for every stored record. *)
Theorem refreshSessions_expiry_gate (w : world) (v : StubProvider.world) :
  (forall l1 s l2 acc1 w1,
     isRefreshing w = false ->
     secrets w !! SESSIONS_KEY = Some (Json (l1 ++ s :: l2)) ->
     run (sweep l1 []) (sweep_start w) = (Returned acc1, w1) ->
     let turn := run (sweep (l1 ++ [s]) []) (sweep_start w) in
     (expiresAt s > now w1 ->
        turn = (Returned (acc1 ++ [s]), advance w1) /\
        requests (log turn.2) = requests (log w1) /\
        exists l',
          secrets (run refreshSessions w).2 !! SESSIONS_KEY = Some (Json l') /\
          l' !! length l1 = Some s) /\
     (expiresAt s <= now w1 ->
        requests (log turn.2) =
          POST_refresh (refreshToken s) :: requests (log w1))) /\
  (forall l acc,
     later w = [] ->
     let out := run (sweep l acc) w in
     requests (log out.2) =
       rev (map (fun s => POST_refresh (refreshToken s))
              (filter (fun s => expiresAt s <= now w) l))
       ++ requests (log w) /\
     exists acc',
       out.1 = Returned (acc ++ acc') /\
       Forall2 (fun s s' => expiresAt s > now w -> s' = s) l acc') /\
  (forall l acc,
     requests (log (run (StubProvider.sweep l acc) v).2) =
       rev (map (fun s => POST_refresh (StubProvider.refreshToken s)) l)
       ++ requests (log v)).
Proof.
  split; [|split].
  - intros l1 s l2 acc1 w1 Hw Hl Hrun turn. subst turn.
    rewrite run_sweep_app, Hrun, run_sweep_cons. split.
    + intros Hgt.
      assert (Hb : (expiresAt s >? now w1) = true) by (apply Z.gtb_lt; lia).
      rewrite Hb. split; [reflexivity|]. split; [reflexivity|].
      destruct (sweep_persists w l1 s l2 acc1 w1 s (advance w1) Hw Hl Hrun)
        as (l' & w' & Hrun' & Hsec & Hat & _).
      { rewrite run_sweep_cons, Hb. reflexivity. }
      exists l'. rewrite Hrun'. auto.
    + intros Hle.
      assert (Hb : (expiresAt s >? now w1) = false)
        by (rewrite Z.gtb_ltb; apply Z.ltb_ge; lia).
      rewrite Hb. cbv zeta. destruct (next_grant (replies w1)); reflexivity.
  - intros l acc Hstill. apply sweep_still_clock, Hstill.
  - intros l acc. apply stub_sweep_requests.
Qed.

End ExpiryGate.

(** ** The token accessor *)

Section Accessor.

Import Auth.

(** Asking for a session with [createIfNone] starts a sign-in when the
    registry has no session. *)
Lemma getSession_createIfNone_signs_in :
  (authentication_getSession "ldap" []
     {| createIfNone := true; silent := false |} AuthScenario.signed_out).2
  = start_sign_in "ldap" AuthScenario.signed_out.
Proof. reflexivity. Qed.

(** C10: [getUserToken] asks the host for the session of the [ldap]
    provider without [createIfNone], so that the host is left as it was and
    no sign-in is started.  It returns the access token of that session
    when there is one, otherwise the [userToken] setting of the extension
    when that is a non-empty string, and otherwise throws "No
    authentication token found"; it throws in no other case. *)
Theorem getUserToken_sources (EXTENSION_NAME : string) (h : Host) :
  let out := getUserToken EXTENSION_NAME h in
  out.2 = h /\
  started out.2 = started h /\
  out.1 =
    match registry h !! "ldap" with
    | Some session => Returned (accessToken session)
    | None =>
        match configuration_get EXTENSION_NAME "userToken" h with
        | Some token =>
            if truthy token then Returned token
            else Thrown (Error "No authentication token found")
        | None => Thrown (Error "No authentication token found")
        end
    end /\
  ((exists e, out.1 = Thrown e) <->
   registry h !! "ldap" = None /\
   falsy (configuration_get EXTENSION_NAME "userToken" h) = true).
Proof.
  intros out. subst out. unfold getUserToken, authentication_getSession. simpl.
  destruct (registry h !! "ldap") as [session|] eqn:Hreg; simpl.
  - split; [reflexivity|]. split; [reflexivity|]. split; [reflexivity|].
    split; [intros [e He]; discriminate | intros [Hnone _]; discriminate].
  - destruct (configuration_get EXTENSION_NAME "userToken" h) as [token|]; simpl.
    + destruct (truthy token) eqn:Ht; simpl;
        (split; [reflexivity|]); (split; [reflexivity|]);
        (split; [reflexivity|]).
      * split; [intros [e He]; discriminate | intros [_ Hf]; discriminate].
      * split; [intros _; split; reflexivity | intros _; eauto].
    + split; [reflexivity|]. split; [reflexivity|]. split; [reflexivity|].
      split; [intros _; split; reflexivity | intros _; eauto].
Qed.

End Accessor.

(** ** The two providers side by side *)

Section Divergence.

Import StubProvider.

(** The sweep of the provider under [stubs] over two stored sessions, a
    store that no method of either provider produces: the server refusing
    the refresh of the first and granting that of the second, both refresh
    calls are made and the list that is saved holds the refreshed second
    session only. *)
Lemma stub_refreshSessions_drops_failed :
  let w := StubScenario.idle
             (Some (Json [StubScenario.alice; StubScenario.bob])) []
             [Status_error None;
              Status_ok (Some (StubScenario.granted "T9" None 3600))] in
  let out := run refreshSessions w in
  secrets w !! SESSIONS_KEY = Some (Json [StubScenario.alice; StubScenario.bob]) /\
  out.1 = Returned tt /\
  requests (log out.2) = [POST_refresh "R2"; POST_refresh "R1"] /\
  secrets out.2 !! SESSIONS_KEY =
    Some (Json [with_tokens StubScenario.bob
                  {| new_accessToken := "T9"; new_refreshToken := "R2";
                     new_expiresInMs := 3600000 |}]).
Proof. vm_compute. repeat split. Qed.


(** Counterexample to C4 as stated.  A login at the stub followed at once
    by a sweep, the clock not having moved: the session the server has just
    issued for an hour is sent to the refresh endpoint all the same. *)
Lemma stub_sweep_refreshes_unexpired :
  let w := StubScenario.idle None [Some "alice"; Some "secret"]
             [Status_ok (Some (StubScenario.granted "T1" (Some "R1") 3600));
              Status_ok (Some (StubScenario.granted "T9" None 3600))] in
  let logged_in := run (createSession []) w in
  let out := run refreshSessions logged_in.2 in
  (exists session,
     logged_in.1 = Returned session /\
     expiresInMs session = 3600000 /\
     secrets logged_in.2 !! SESSIONS_KEY = Some (Json [session])) /\
  now logged_in.2 = now w /\
  requests (log out.2) = [POST_refresh "R1"; POST_login "alice" "secret"].
Proof. vm_compute. split; [eexists|]; repeat split. Qed.

(** Counterexample to C6 as stated.  The record the stub builds at a login
    carries the server's lifetime,
    whatever the clock says: not the clock plus ten minutes. *)
Lemma stub_createSession_expiry :
  let w := StubScenario.idle None [Some "alice"; Some "secret"]
             [Status_ok (Some (StubScenario.granted "T1" None 3600))] in
  let out := run (createSession []) w in
  exists session,
    out.1 = Returned session /\
    secrets out.2 !! SESSIONS_KEY = Some (Json [session]) /\
    expiresInMs session = 3600000 /\
    expiresInMs session <> now w + 10 * 60 * 1000.
Proof. vm_compute. eexists. repeat split; discriminate. Qed.

End Divergence.

Section ProviderExamples.

Import LdapAuthProvider.

(** Counterexample to C5 as stated.  Three rejected logins in a row: what
    is thrown is the error of the
    third rejection, after three calls. *)
Lemma createSession_exhausted_error :
  let w := Scenario.idle None
             [Some "alice"; Some "x"; Some "alice"; Some "y";
              Some "alice"; Some "z"]
             [Status_error None; Status_error None; Status_error None] in
  let out := run (createSession []) w in
  out.1 = Thrown (Error "Invalid credentials") /\
  out.1 <> Thrown (Error "Maximum login attempts exceeded") /\
  requests (log out.2) =
    [POST_login "alice" "z"; POST_login "alice" "y"; POST_login "alice" "x"].
Proof. vm_compute. repeat split; discriminate. Qed.

(** Counterexample to C9 as stated.  A stored text that cannot be parsed:
    the reader gets the parser's
    error, not the empty list. *)
Lemma getSessions_corrupt_throws :
  let w := Scenario.idle (Some Unparsable) [] [] in
  (run getSessions w).1 = Thrown (SyntaxError "Unexpected token") /\
  (run getSessions w).1 <> Returned [].
Proof. vm_compute. split; [reflexivity | discriminate]. Qed.

End ProviderExamples.

(** ** The theorems at work on the sample worlds *)

Section Witnesses.

Import LdapAuthProvider.

(** A sweep over one expired session, interrupted while its refresh call
    is in flight. *)
Lemma refreshSessions_reentrancy_guard_witness :
  let w := Scenario.idle (Some (Json [Scenario.alice])) []
             [Status_ok (Some (Scenario.granted "T9" None))] in
  let first := Nat.iter 2 resume (settle refreshSessions w) in
  isRefreshing w = false /\
  pending first.1 = true /\
  isRefreshing first.2 = true /\
  settle refreshSessions first.2 = (Ret tt, first.2) /\
  run first.1 (settle refreshSessions first.2).2 = run refreshSessions w /\
  isRefreshing (run refreshSessions w).2 = false.
Proof.
  intros w first.
  destruct (refreshSessions_reentrancy_guard w) as [_ H].
  destruct (H eq_refl) as (Hover & Hdown & _).
  destruct (Hover 2%nat eq_refl) as (Hup & Hsecond & Hsame).
  split; [reflexivity|]. split; [reflexivity|]. split; [exact Hup|].
  split; [exact Hsecond|]. split; [exact Hsame | exact Hdown].
Defined.

(** Recovery with two stored sessions and a server that grants the
    refresh. *)
Lemma handleTokenExpired_outcomes_witness :
  let w := Scenario.idle (Some (Json [Scenario.alice; Scenario.bob])) []
             [Status_ok (Some (Scenario.granted "T9" (Some "R9")))] in
  let out := run handleTokenExpired w in
  let alice' :=
    {| id := "alice"; accessToken := "T9";
       account := {| account_id := "alice"; label := "Alice" |};
       scopes := []; refreshToken := "R9"; expiresAt := 605000;
       loginNeeded := false |} in
  secrets w !! SESSIONS_KEY = Some (Json [Scenario.alice; Scenario.bob]) /\
  out.1 = Returned true /\
  secrets out.2 !! SESSIONS_KEY = Some (Json [alice']) /\
  log out.2 =
    [Fired {| added := []; removed := []; changed := [alice'] |};
     Saved SESSIONS_KEY (Json [alice']);
     Sent (POST_refresh "R1");
     Loaded SESSIONS_KEY].
Proof.
  intros w out alice'.
  destruct (handleTokenExpired_outcomes w) as [_ H].
  split; [reflexivity|].
  exact (H Scenario.alice [Scenario.bob] eq_refl).
Defined.

(** A sweep over a session that has not expired and one that has. *)
Lemma refreshSessions_expiry_gate_witness :
  let w := Scenario.idle (Some (Json [Scenario.bob; Scenario.alice])) []
             [Status_error None] in
  let w1 := advance (sweep_start w) in
  isRefreshing w = false /\
  run (sweep [Scenario.bob] []) (sweep_start w) = (Returned [Scenario.bob], w1) /\
  expiresAt Scenario.bob > now (sweep_start w) /\
  expiresAt Scenario.alice <= now w1 /\
  requests (log (run (sweep [Scenario.bob; Scenario.alice] []) (sweep_start w)).2)
    = [POST_refresh "R1"].
Proof.
  intros w w1.
  destruct (refreshSessions_expiry_gate w (StubScenario.idle None [] []))
    as [H _].
  destruct (H [Scenario.bob] Scenario.alice [] [Scenario.bob] w1
              eq_refl eq_refl eq_refl) as [_ Hexpired].
  split; [reflexivity|]. split; [reflexivity|].
  split; [reflexivity|]. split; [discriminate|].
  apply Hexpired. discriminate.
Defined.

(** Rejected credentials, then a timeout, then a granted login. *)
Lemma createSession_three_attempts_witness :
  let w := Scenario.idle None
             [Some "alice"; Some "x"; Some "alice"; Some "y";
              Some "alice"; Some "z"]
             [Status_error None; Rejected (FetchError "timeout");
              Status_ok (Some (Scenario.granted "T1" None))] in
  let out := run (createSession []) w in
  requests (log out.2) =
    [POST_login "alice" "z"; POST_login "alice" "y"; POST_login "alice" "x"] /\
  out.1 = Returned (new_session "alice" (Scenario.granted "T1" None) 5000).
Proof.
  intros w out.
  destruct (createSession_three_attempts w []) as (_ & _ & H).
  apply (H "alice" "x" "alice" "y" "alice" "z" [] (Status_error None)
           (Rejected (FetchError "timeout"))
           (Status_ok (Some (Scenario.granted "T1" None))) []);
    try reflexivity.
  repeat constructor.
Defined.

(** A login granted at the second attempt replaces the stored session. *)
Lemma createSession_success_witness :
  let w := Scenario.idle (Some (Json [Scenario.bob]))
             [Some "alice"; Some "x"; Some "alice"; Some "z"]
             [Status_error None;
              Status_ok (Some (Scenario.granted "T1" None))] in
  let out := run (createSession []) w in
  let session := new_session "alice" (Scenario.granted "T1" None) 5000 in
  out.1 = Returned session /\
  secrets out.2 !! SESSIONS_KEY = Some (Json [session]) /\
  events (log out.2) = [] /\
  expiresAt session = 605000 /\
  refreshToken session = "".
Proof.
  intros w out session.
  destruct (createSession_success w (StubScenario.idle None [] []) [])
    as [H _].
  assert (Hrun : run (createSession []) w = (Returned session, out.2))
    by (vm_compute; reflexivity).
  destruct (H session out.2 Hrun) as (Hsec & Hev & Hexp & _).
  split; [vm_compute; reflexivity|]. split; [exact Hsec|]. split; [exact Hev|].
  split; [exact Hexp | reflexivity].
Defined.

(** Removing the second of two stored sessions while the logout call
    times out. *)
Lemma removeSession_known_witness :
  let w := Scenario.idle (Some (Json [Scenario.alice; Scenario.bob])) []
             [Rejected (FetchError "timeout")] in
  let out := run (removeSession "bob") w in
  secrets w !! SESSIONS_KEY = Some (Json [Scenario.alice; Scenario.bob]) /\
  out.1 = Returned tt /\
  secrets out.2 !! SESSIONS_KEY = Some (Json [Scenario.alice]) /\
  log out.2 =
    [Fired {| added := []; removed := [Scenario.bob]; changed := [] |};
     Sent (POST_logout "R2");
     Saved SESSIONS_KEY (Json [Scenario.alice]);
     Loaded SESSIONS_KEY].
Proof.
  intros w out. split; [reflexivity|].
  apply (removeSession_known w [Scenario.alice] Scenario.bob [] "bob");
    [reflexivity | reflexivity |].
  repeat constructor. discriminate.
Defined.

(** A store whose text cannot be parsed. *)
Lemma getSessions_unreadable_witness :
  let w := Scenario.idle (Some Unparsable) [] [] in
  secrets w !! SESSIONS_KEY = Some Unparsable /\
  run getSessions w =
    (Thrown (SyntaxError "Unexpected token"), record (Loaded SESSIONS_KEY) w) /\
  run handleTokenExpired w = (Returned false, record (Loaded SESSIONS_KEY) w) /\
  run refreshSessions w =
    (Thrown (SyntaxError "Unexpected token"), record (Loaded SESSIONS_KEY) w).
Proof.
  intros w.
  destruct (getSessions_unreadable w (StubScenario.idle (Some Unparsable) [] [])
              "alice") as (_ & _ & H & _).
  destruct (H eq_refl) as (Hget & Hrecover & _ & Hsweep).
  split; [reflexivity|]. split; [exact Hget|]. split; [exact Hrecover|].
  exact (Hsweep eq_refl).
Defined.

End Witnesses.

(** * Further properties of the providers *)

(** ** Interactive login, continued *)

Section LoginMore.

Import LdapAuthProvider.

Implicit Types w : world.

(** The user name prompt of an attempt. *)
Lemma login_attempt_no_username a w :
  falsy (next_answer w) = true ->
  run (login_attempt a) w =
    (Thrown (Error "Username required"),
     record (Asked (if a =? 0 then "Enter LDAP username"
                    else "Invalid credentials. Enter LDAP username") false)
       (next_input w)).
Proof.
  destruct w as [sec fl nw lt ins rs lg]. unfold next_answer, login_attempt.
  simpl. intros H.
  destruct ins as [|[[|c u]|] ins]; simpl in *; try discriminate; reflexivity.
Qed.

Lemma login_attempt_no_password a w :
  falsy (next_answer w) = false ->
  falsy (next_answer (next_input w)) = true ->
  run (login_attempt a) w =
    (Thrown (Error "Password required"),
     record (Asked "Enter LDAP password" true)
       (next_input
          (record (Asked (if a =? 0 then "Enter LDAP username"
                          else "Invalid credentials. Enter LDAP username") false)
             (next_input w)))).
Proof.
  destruct w as [sec fl nw lt ins rs lg]. unfold next_answer, login_attempt.
  simpl. intros H1 H2.
  destruct ins as [|[[|c u]|] ins]; simpl in *; try discriminate.
  destruct ins as [|[[|c' p]|] ins]; simpl in *; try discriminate; reflexivity.
Qed.

(** An attempt that is answered and not granted, with attempts left. *)
Lemma login_attempt_retry a w u p :
  a < maxAttempts - 1 ->
  next_answer w = Some u -> truthy u = true ->
  next_answer (next_input w) = Some p -> truthy p = true ->
  next_grant (replies w) = None ->
  exists message,
    run (login_attempt a) w =
      (Returned None,
       record (Warned message)
         (record (Sent (POST_login u p))
            (next_reply
               (record (Asked "Enter LDAP password" true)
                  (next_input
                     (record (Asked (if a =? 0 then "Enter LDAP username"
                                     else "Invalid credentials. Enter LDAP username")
                                false)
                        (next_input w))))))).
Proof.
  destruct w as [sec fl nw lt ins rs lg]. unfold next_answer, login_attempt.
  simpl. intros Ha Hu Htu Hp Htp Hfail.
  apply Z.ltb_lt in Ha.
  destruct ins as [|[u0|] ins]; simpl in *; try discriminate.
  injection Hu as ->.
  destruct ins as [|[p0|] ins]; simpl in *; try discriminate.
  injection Hp as ->.
  destruct u as [|c u]; [discriminate|]. destruct p as [|c' p]; [discriminate|].
  destruct rs as [|[e|[data|]|detail] rs]; simpl in *; try discriminate;
    rewrite Ha; simpl; eexists; reflexivity.
Qed.

(** X1: a prompt of [createSession] that is dismissed, or answered with
    nothing, ends the login at once.  At the user name the password is
    not asked for; at either prompt no request is sent; and this holds at
    a later attempt as well: after a failed call the dismissed prompt ends
    the login, with that one call made and no further one. *)
Theorem createSession_missing_input w scopes :
  (falsy (next_answer w) = true ->
     run (createSession scopes) w =
       (Thrown (Error "Username required"),
        record (Asked "Enter LDAP username" false) (next_input w))) /\
  (falsy (next_answer w) = false ->
   falsy (next_answer (next_input w)) = true ->
     run (createSession scopes) w =
       (Thrown (Error "Password required"),
        record (Asked "Enter LDAP password" true)
          (next_input (record (Asked "Enter LDAP username" false) (next_input w))))) /\
  (forall u p,
     next_answer w = Some u -> truthy u = true ->
     next_answer (next_input w) = Some p -> truthy p = true ->
     next_grant (replies w) = None ->
     falsy (next_answer (next_input (next_input w))) = true ->
     let out := run (createSession scopes) w in
     out.1 = Thrown (Error "Username required") /\
     requests (log out.2) = POST_login u p :: requests (log w) /\
     secrets out.2 = secrets w).
Proof.
  unfold createSession. split; [|split].
  - intros H. rewrite login_loop_step. change (0 <? maxAttempts) with true.
    cbv iota. rewrite run_bind, (login_attempt_no_username 0 w H). reflexivity.
  - intros H1 H2. rewrite login_loop_step. change (0 <? maxAttempts) with true.
    cbv iota. rewrite run_bind, (login_attempt_no_password 0 w H1 H2). reflexivity.
  - intros u p Hu Htu Hp Htp Hfail Hnext. cbv zeta.
    rewrite login_loop_step. change (0 <? maxAttempts) with true. cbv iota.
    destruct (login_attempt_retry 0 w u p) as [message Hrun]; try assumption;
      [reflexivity|].
    rewrite run_bind, Hrun. cbv beta iota.
    rewrite login_loop_step. change (0 + 1 <? maxAttempts) with true. cbv iota.
    rewrite run_bind, login_attempt_no_username by exact Hnext.
    repeat split.
Qed.

(** The login loop that throws has left the store and the event channel
    alone. *)
Lemma login_loop_failure fuel a w e w' :
  run (login_loop fuel a) w = (Thrown e, w') ->
  secrets w' = secrets w /\ events (log w') = events (log w).
Proof.
  revert a w. induction fuel as [|fuel IH]; intros a w.
  - simpl. intros [= _ <-]. auto.
  - rewrite login_loop_step.
    destruct (a <? maxAttempts); [|simpl; intros [= _ <-]; auto].
    rewrite run_bind. pose proof (login_attempt_cases a w) as Hcases.
    cbv zeta in Hcases.
    destruct (run (login_attempt a) w) as [[[s1|]|e1] w1]; simpl in Hcases.
    + discriminate.
    + intros Hrun.
      destruct Hcases as (_ & _ & Hsec & _ & _ & _ & _ & Hev & _).
      destruct (IH _ _ Hrun) as [Hsec' Hev']. split; congruence.
    + intros [= _ <-]. destruct Hcases as (Hsec & Hev & _). auto.
Qed.

(** X2: a login that fails, for whatever reason and at whichever attempt,
    leaves the stored sessions as they were and fires no event. *)
Theorem createSession_failure_harmless w scopes e w' :
  run (createSession scopes) w = (Thrown e, w') ->
  secrets w' = secrets w /\ events (log w') = events (log w).
Proof. apply login_loop_failure. Qed.

End LoginMore.

(** ** The sweep, continued *)

Section SweepMore.

Import LdapAuthProvider.

Implicit Types w : world.

(** X3: one refresh call sends exactly one request, whatever comes back,
    and touches neither the store, nor the flag, nor the event channel.
    When the server grants it, the new access token is the server's, the
    refresh token is the server's unless that is missing or empty, in
    which case the old one is kept, and the expiry is ten minutes after
    the clock; when it does not, the call throws. *)
Theorem refreshSession_effects tok w :
  let out := run (_refreshSession tok) w in
  requests (log out.2) = POST_refresh tok :: requests (log w) /\
  events (log out.2) = events (log w) /\
  secrets out.2 = secrets w /\
  isRefreshing out.2 = isRefreshing w /\
  match next_grant (replies w) with
  | Some data =>
      exists r,
        out.1 = Returned r /\
        new_accessToken r = tokens_accessToken (tokens data) /\
        new_refreshToken r =
          match tokens_refreshToken (tokens data) with
          | Some (String c t) => String c t
          | _ => tok
          end /\
        new_expiresAt r = now w + 600000
  | None => exists e, out.1 = Thrown e
  end.
Proof.
  intros out. subst out. rewrite run_refreshSession. cbv zeta.
  destruct (replies w) as [|[e|[data|]|detail] rs]; simpl;
    (split; [reflexivity|]); (split; [reflexivity|]);
    (split; [reflexivity|]); (split; [reflexivity|]); eauto.
  eexists. split; [reflexivity|]. split; [reflexivity|]. split; [|reflexivity].
  simpl. destruct (tokens_refreshToken (tokens data)) as [[|c t]|]; reflexivity.
Qed.

(** What the loop of a sweep keeps: it never throws, pushes for every
    record a record with the same identity, sends at most one request a
    record, and leaves the store, the flag and the event channel alone. *)
Lemma run_sweep_keeps l acc w :
  exists acc' w',
    run (sweep l acc) w = (Returned (acc ++ acc'), w') /\
    Forall2 same_identity l acc' /\
    secrets w' = secrets w /\
    isRefreshing w' = isRefreshing w /\
    events (log w') = events (log w) /\
    (length (requests (log w')) <= length (requests (log w)) + length l)%nat.
Proof.
  revert acc w. induction l as [|s l IH]; intros acc w.
  - exists [], w. rewrite app_nil_r. repeat split; auto. simpl. lia.
  - rewrite run_sweep_cons.
    assert (Hstep : forall x w1,
              same_identity s x ->
              secrets w1 = secrets w -> isRefreshing w1 = isRefreshing w ->
              events (log w1) = events (log w) ->
              (length (requests (log w1)) <= length (requests (log w)) + 1)%nat ->
              exists acc' w',
                run (sweep l (acc ++ [x])) w1 = (Returned (acc ++ acc'), w') /\
                Forall2 same_identity (s :: l) acc' /\
                secrets w' = secrets w /\
                isRefreshing w' = isRefreshing w /\
                events (log w') = events (log w) /\
                (length (requests (log w'))
                 <= length (requests (log w)) + length (s :: l))%nat).
    { intros x w1 Hx Hs Hf He Hr.
      destruct (IH (acc ++ [x]) w1)
        as (acc' & w' & Hrun & Hall & Hs' & Hf' & He' & Hr').
      exists (x :: acc'), w'. rewrite Hrun, <- app_assoc. simpl.
      repeat split; try congruence; [constructor; assumption | lia]. }
    destruct (expiresAt s >? now w).
    + apply Hstep; try reflexivity; [repeat split | simpl; lia].
    + cbv zeta. destruct (next_grant (replies w)).
      * apply Hstep; try reflexivity; [repeat split | simpl; lia].
      * apply Hstep; try reflexivity; [repeat split | simpl; lia].
Qed.

(** X4: a sweep over a store that can be read returns normally and lowers
    the flag.  The list it saves has, place by place, the sessions that
    were stored, with the same id, account, scopes and [loginNeeded]; an
    empty list is not saved at all.  No other key of the secret storage is
    written, no event is fired, and at most one request is sent for each
    stored session. *)
Theorem refreshSessions_preserves_sessions w l :
  isRefreshing w = false ->
  (run getSessions w).1 = Returned l ->
  let out := run refreshSessions w in
  out.1 = Returned tt /\
  isRefreshing out.2 = false /\
  events (log out.2) = events (log w) /\
  (length (requests (log out.2)) <= length (requests (log w)) + length l)%nat /\
  exists l',
    Forall2 same_identity l l' /\
    secrets out.2 =
      match l with
      | [] => secrets w
      | _ :: _ => <[SESSIONS_KEY := Json l']> (secrets w)
      end.
Proof.
  intros Hw Hl out. subst out.
  rewrite run_getSessions in Hl. cbn [fst] in Hl.
  rewrite run_refreshSessions, Hw. unfold sweep_all.
  rewrite run_bind, run_await, run_getSessions.
  change (secrets (set_refreshing true w)) with (secrets w). rewrite Hl.
  cbv beta iota. rewrite run_bind.
  destruct (run_sweep_keeps l [] (record (Loaded SESSIONS_KEY) (set_refreshing true w)))
    as (l' & w' & Hrun & Hall & Hsec & Hflag & Hev & Hreq).
  rewrite Hrun. simpl app. cbv beta iota.
  destruct Hall as [|s x l l' Hx Hall].
  - simpl. repeat split; auto. exists []. split; [constructor | exact Hsec].
  - change (0 <? Z.of_nat (length (x :: l'))) with true. cbv iota.
    rewrite run_await. simpl.
    split; [reflexivity|]. split; [reflexivity|]. split; [exact Hev|].
    split; [exact Hreq|].
    exists (x :: l'). split; [constructor; assumption|]. rewrite Hsec. reflexivity.
Qed.

(** X5: when the sweep comes to a record that has expired and the server
    grants the refresh, the list the sweep saves has at that place the
    record with the new access token, the new refresh token (the old one
    when the server sends none) and an expiry ten minutes after the clock
    as read once the answer is in, and otherwise as it was. *)
Theorem refreshSessions_updates_granted w l1 s l2 acc1 w1 data :
  isRefreshing w = false ->
  secrets w !! SESSIONS_KEY = Some (Json (l1 ++ s :: l2)) ->
  run (sweep l1 []) (sweep_start w) = (Returned acc1, w1) ->
  expiresAt s <= now w1 ->
  next_grant (replies w1) = Some data ->
  exists l' w' s',
    run refreshSessions w = (Returned tt, w') /\
    secrets w' !! SESSIONS_KEY = Some (Json l') /\
    l' !! length l1 = Some s' /\
    same_identity s s' /\
    accessToken s' = tokens_accessToken (tokens data) /\
    refreshToken s' = or_else (tokens_refreshToken (tokens data)) (refreshToken s) /\
    expiresAt s' = now (advance w1) + 600000.
Proof.
  intros Hw Hl Hrun Hexp Hgrant.
  pose (s' := with_tokens s (refreshed_tokens data (refreshToken s) (now (advance w1)))).
  destruct (sweep_persists w l1 s l2 acc1 w1 s'
              (advance (record (Sent (POST_refresh (refreshToken s)))
                          (next_reply (advance w1)))) Hw Hl Hrun)
    as (l' & w' & Hrun' & Hsec & Hat & _).
  { rewrite run_sweep_cons.
    replace (expiresAt s >? now w1) with false
      by (symmetry; rewrite Z.gtb_ltb; apply Z.ltb_ge; lia).
    cbv zeta. rewrite Hgrant. reflexivity. }
  exists l', w', s'. repeat split; assumption.
Qed.

End SweepMore.

(** ** Recovery and removal, continued *)

Section RecoveryMore.

Import LdapAuthProvider.

Implicit Types w : world.

(** X6: [handleTokenExpired] never throws and sends at most one request.
    It answers [true] exactly when the stored list can be read, is not
    empty, and the server grants the refresh of its first session; in
    every other case it answers [false]. *)
Theorem handleTokenExpired_decides w :
  let out := run handleTokenExpired w in
  (length (requests (log out.2)) <= length (requests (log w)) + 1)%nat /\
  exists b,
    out.1 = Returned b /\
    (b = true <->
     exists s rest data,
       secrets w !! SESSIONS_KEY = Some (Json (s :: rest)) /\
       next_grant (replies w) = Some data).
Proof.
  intros out. subst out. unfold handleTokenExpired.
  rewrite run_try_catch, run_bind, run_await, run_getSessions.
  destruct (secrets w !! SESSIONS_KEY) as [[| |[|s rest]]|] eqn:Hsec;
    cbv beta iota.
  1-3,5: simpl; split; [lia|]; exists false; split; [reflexivity|];
    split; [discriminate|]; intros (s0 & rest0 & data & H & _); discriminate.
  rewrite run_try_catch, run_bind, run_await, run_refreshSession.
  change (replies (record (Loaded SESSIONS_KEY) w)) with (replies w).
  destruct (replies w) as [|[e|[data|]|detail] rs]; simpl;
    (split; [lia|]).
  3: { exists true. split; [reflexivity|]. split; [|reflexivity].
       intros _. exists s, rest, data. split; reflexivity. }
  all: exists false; split; [reflexivity|]; split; [discriminate|];
    intros (s0 & rest0 & data0 & _ & H); discriminate.
Qed.

(** The run of [removeSession] on an id that is in the stored list. *)
Lemma run_removeSession_found w l1 s l2 sid :
  secrets w !! SESSIONS_KEY = Some (Json (l1 ++ s :: l2)) ->
  id s = sid ->
  Forall (fun x => id x ≠ sid) l1 ->
  run (removeSession sid) w =
    let saved := record (Saved SESSIONS_KEY (Json (l1 ++ l2)))
                   (put_secret SESSIONS_KEY (Json (l1 ++ l2))
                      (record (Loaded SESSIONS_KEY) w)) in
    (Returned tt,
     record (Fired {| added := []; removed := [s]; changed := [] |})
       (if truthy (refreshToken s)
        then record (Sent (POST_logout (refreshToken s))) (next_reply saved)
        else saved)).
Proof.
  intros Hl Hs Hl1. unfold removeSession.
  rewrite run_bind, run_await, run_getSessions, Hl. cbv beta iota zeta.
  rewrite (findIndex_first _ l1 s l2)
    by (try apply id_differs; try apply String.eqb_eq; assumption).
  rewrite at_index_middle, splice_middle.
  rewrite run_bind, run_await. simpl (run (storeSessions _) _). cbv beta iota.
  rewrite run_bind, run_try_catch.
  destruct (truthy (refreshToken s)); [|reflexivity].
  simpl. destruct (replies w) as [|[e|b|d] rs]; reflexivity.
Qed.

(** X7: removing a session twice.  When the id is that of one stored
    session only, the second [removeSession] finds nothing: it loads the
    list and returns, saving nothing, sending nothing and firing
    nothing. *)
Theorem removeSession_twice w l1 s l2 sid :
  secrets w !! SESSIONS_KEY = Some (Json (l1 ++ s :: l2)) ->
  id s = sid ->
  Forall (fun x => id x ≠ sid) l1 ->
  Forall (fun x => id x ≠ sid) l2 ->
  let once := (run (removeSession sid) w).2 in
  run (removeSession sid) once = (Returned tt, record (Loaded SESSIONS_KEY) once).
Proof.
  intros Hl Hs Hl1 Hl2 once. subst once.
  rewrite (run_removeSession_found w l1 s l2 sid Hl Hs Hl1). cbv zeta.
  apply (removeSession_unknown _ (l1 ++ l2)).
  - rewrite run_getSessions. cbn [fst].
    destruct (truthy (refreshToken s)); simpl; rewrite lookup_insert_eq;
      reflexivity.
  - apply Forall_app. split; assumption.
Qed.

(** X8: logging in and then removing the session by the user name it was
    given.  The store ends up holding the empty list, one [removed] event
    carries the session [createSession] returned, and the logout endpoint
    is called exactly when the server had issued a refresh token. *)
Theorem createSession_then_removeSession w scopes session w' :
  run (createSession scopes) w = (Returned session, w') ->
  let out := run (removeSession (id session)) w' in
  out.1 = Returned tt /\
  secrets out.2 !! SESSIONS_KEY = Some (Json []) /\
  events (log out.2) =
    {| added := []; removed := [session]; changed := [] |} :: events (log w) /\
  requests (log out.2) =
    (if truthy (refreshToken session)
     then [POST_logout (refreshToken session)] else [])
    ++ requests (log w').
Proof.
  intros Hrun out. subst out.
  destruct (login_loop_success _ _ _ _ _ Hrun)
    as (u & p & data & prompt & older & k & _ & _ & _ & Hsec & Hev & _).
  rewrite (run_removeSession_found w' [] session [] (id session)).
  - cbv zeta. destruct (truthy (refreshToken session)); simpl;
      rewrite lookup_insert_eq, Hev; repeat split.
  - rewrite Hsec. apply lookup_insert_eq.
  - reflexivity.
  - constructor.
Qed.

(** X9: a session that has just been issued is not refreshed.  A sweep
    that starts after a successful login, at a clock reading that is less
    than ten minutes after the one of the login, sends no request and
    leaves the session in the store as [createSession] returned it. *)
Theorem createSession_then_refreshSessions w scopes session w' :
  run (createSession scopes) w = (Returned session, w') ->
  isRefreshing w' = false ->
  now w' < now w + 600000 ->
  let out := run refreshSessions w' in
  out.1 = Returned tt /\
  requests (log out.2) = requests (log w') /\
  secrets out.2 !! SESSIONS_KEY = Some (Json [session]).
Proof.
  intros Hrun Hidle Hclock out. subst out.
  destruct (login_loop_success _ _ _ _ _ Hrun)
    as (u & p & data & prompt & older & k & _ & _ & Hs & Hsec & _ & _).
  assert (Hstored : secrets w' !! SESSIONS_KEY = Some (Json [session]))
    by (rewrite Hsec; apply lookup_insert_eq).
  assert (Hexp : expiresAt session = now w + 600000) by (subst session; reflexivity).
  rewrite run_refreshSessions, Hidle.
  rewrite (run_sweep_all [session]) by exact Hstored.
  rewrite run_sweep_cons.
  replace (expiresAt session >? now (record (Loaded SESSIONS_KEY) (set_refreshing true w')))
    with true by (symmetry; apply Z.gtb_lt; simpl; lia).
  simpl. split; [reflexivity|]. split; [reflexivity|]. apply lookup_insert_eq.
Qed.

End RecoveryMore.

(** ** The periodic timer *)

Section TimerLemmas.

Context {S D : Type}.

Variable callback : prog S D unit.

(** What the proof needs of the callback: with the flag up it returns at
    once, and with the flag down it starts a sweep that holds the flag. *)
Hypothesis callback_busy : forall w,
  isRefreshing w = true -> settle callback w = (Ret tt, w).
Hypothesis callback_idle : forall w,
  isRefreshing w = false -> flag_invariant (settle callback w).

Lemma tick_one_sweep (m : Machine S D) :
  one_sweep m -> one_sweep (tick callback m).
Proof.
  destruct m as [ts w]. unfold one_sweep, tick. simpl.
  intros [[-> Hdown]|(p & -> & Hp & Hsw & Hup)].
  - destruct (callback_idle w Hdown) as [(Hpend & Hsweep & Hflag)|(Hpend & Hflag)];
      rewrite Hpend; simpl.
    + right. eauto.
    + left. auto.
  - rewrite (callback_busy w Hup). simpl. right. eauto.
Qed.

Lemma wake_one_sweep i (m : Machine S D) :
  one_sweep m -> one_sweep (wake i m).
Proof.
  destruct m as [ts w]. unfold one_sweep, wake. simpl.
  intros [[-> Hdown]|(p & -> & Hp & Hsw & Hup)].
  - rewrite lookup_nil. simpl. left. auto.
  - destruct i as [|i]; simpl; [|right; eauto].
    assert (Hinv : flag_invariant (p, w)) by (left; auto).
    apply resume_flag_invariant in Hinv.
    destruct Hinv as [(Hpend & Hsweep & Hflag)|(Hpend & Hflag)];
      rewrite Hpend; simpl.
    + right. eauto.
    + left. auto.
Qed.

Lemma play_one_sweep es (m : Machine S D) :
  one_sweep m -> one_sweep (play callback es m).
Proof.
  revert m. induction es as [|e es IH]; intros m Hm; [exact Hm|].
  simpl. apply IH. destruct e; [apply tick_one_sweep | apply wake_one_sweep];
    exact Hm.
Qed.

Lemma tick_while_sweeping (m : Machine S D) p :
  one_sweep m -> tasks m = [p] -> tick callback m = m.
Proof.
  destruct m as [ts w]. unfold one_sweep, tick. simpl.
  intros [[-> _]|(q & -> & _ & _ & Hup)] Hts; [discriminate|].
  rewrite (callback_busy w Hup). reflexivity.
Qed.

End TimerLemmas.

Section ProviderTimer.

Import LdapAuthProvider.

(** X10: the interval of the constructor, firing any number of times,
    in any order with the answers the suspended sweeps are waiting for.
    From an idle provider there is never more than one sweep in flight;
    the flag is up exactly while there is one; and a firing of the
    interval while one is in flight changes nothing at all. *)
Theorem timer_single_sweep (w : world) (es : list Turn) :
  isRefreshing w = false ->
  let m := play refreshSessions es {| tasks := []; state := w |} in
  (length (tasks m) <= 1)%nat /\
  (isRefreshing (state m) = true <-> tasks m <> []) /\
  (tasks m <> [] -> tick refreshSessions m = m).
Proof.
  intros Hw m.
  assert (Hbusy : forall w0 : world, isRefreshing w0 = true ->
                    settle refreshSessions w0 = (Ret tt, w0))
    by (intros w0 H; apply (refreshSessions_busy w0 H)).
  assert (Hidle : forall w0 : world, isRefreshing w0 = false ->
                    flag_invariant (settle refreshSessions w0)).
  { intros w0 H. rewrite refreshSessions_idle by exact H.
    apply settle_sweeping; [apply flagless_sweep_all | reflexivity]. }
  assert (Hm : one_sweep m).
  { apply play_one_sweep; try assumption. left. auto. }
  pose proof (tick_while_sweeping refreshSessions Hbusy m) as Htick.
  pose proof Hm as Hm'.
  destruct Hm' as [[Hts Hdown]|(p & Hts & _ & _ & Hup)].
  - rewrite Hts, Hdown. simpl. split; [lia|]. split; [|congruence].
    split; [discriminate | congruence].
  - split; [rewrite Hts; simpl; lia|]. split.
    + rewrite Hts, Hup. split; [discriminate | reflexivity].
    + intros _. exact (Htick p Hm Hts).
Qed.

End ProviderTimer.

(** ** The provider under [stubs], continued *)

Section StubMore.

Import StubProvider.

Implicit Types v : world.

Lemma stub_flagless_getSessions : flagless getSessions.
Proof.
  apply flagless_bind; [apply flagless_call; reflexivity|].
  intros [[| |l]|]; constructor.
Qed.

Lemma stub_flagless_refreshSession tok : flagless (_refreshSession tok).
Proof.
  apply flagless_bind; [apply flagless_fetch|].
  intros [e|body|detail].
  - constructor.
  - apply flagless_bind; [apply flagless_json|]. intros data. constructor.
  - constructor.
Qed.

Lemma stub_flagless_sweep l acc : flagless (sweep l acc).
Proof.
  revert acc. induction l as [|s l IH]; intros acc.
  - constructor.
  - rewrite stub_sweep_cons.
    apply flagless_bind; [|intros acc'; apply IH].
    apply flagless_try_catch; [|intros e; constructor].
    apply flagless_bind; [apply flagless_await, stub_flagless_refreshSession|].
    intros r. constructor.
Qed.

Lemma stub_flagless_sweep_all : flagless sweep_all.
Proof.
  apply flagless_bind; [apply flagless_await, stub_flagless_getSessions|].
  intros l. apply flagless_bind; [apply stub_flagless_sweep|]. intros acc.
  destruct (0 <? Z.of_nat (length acc)).
  - apply flagless_await, flagless_call. reflexivity.
  - constructor.
Qed.

Lemma stub_refreshSessions_busy v :
  isRefreshing v = true ->
  settle refreshSessions v = (Ret tt, v) /\ run refreshSessions v = (Returned tt, v).
Proof.
  intros Hv. unfold refreshSessions. simpl. rewrite Hv. split; reflexivity.
Qed.

Lemma stub_refreshSessions_idle v :
  isRefreshing v = false ->
  settle refreshSessions v = settle (finally sweep_all release) (set_refreshing true v).
Proof.
  intros Hv. unfold refreshSessions. simpl. rewrite Hv. reflexivity.
Qed.

(** X11: the sweep of the stub has the same reentrancy guard.  Called
    while the flag is up it returns at once in an unchanged world; called
    while it is down, the flag is up at every suspension point, a second
    call arriving there is a no-op after which the first sweep ends where
    it would have ended alone, and the flag is down again when the sweep
    has ended, by returning or by throwing. *)
Theorem stub_refreshSessions_reentrancy_guard v :
  (isRefreshing v = true ->
     settle refreshSessions v = (Ret tt, v) /\
     run refreshSessions v = (Returned tt, v)) /\
  (isRefreshing v = false ->
     (forall n,
        let first := Nat.iter n resume (settle refreshSessions v) in
        let second := settle refreshSessions first.2 in
        pending first.1 = true ->
        isRefreshing first.2 = true /\
        second = (Ret tt, first.2) /\
        run first.1 second.2 = run refreshSessions v) /\
     isRefreshing (run refreshSessions v).2 = false).
Proof.
  split; [apply stub_refreshSessions_busy|].
  intros Hv. split.
  - intros n first second Hpending.
    assert (Hinv : flag_invariant first).
    { apply resume_n_flag_invariant. rewrite stub_refreshSessions_idle by exact Hv.
      apply settle_sweeping; [apply stub_flagless_sweep_all | reflexivity]. }
    destruct Hinv as [(_ & _ & Hup)|(Hdone & _)]; [|congruence].
    destruct (stub_refreshSessions_busy first.2 Hup) as [Hsecond _].
    split; [exact Hup|]. split; [exact Hsecond|].
    subst second. rewrite Hsecond. cbn [snd]. subst first.
    rewrite run_resume_n. apply run_settle.
  - rewrite stub_run_refreshSessions, Hv. reflexivity.
Qed.

(** X12: the login of the stub is a single attempt.  It sends at most one
    request; a login that throws leaves the store and the event channel
    alone.  Both prompts are shown before the answers are looked at: when
    either is dismissed or empty the login throws without a request.
    Otherwise a rejected request throws the transport's error, a response
    that is not a success throws "LDAP authentication failed", and a
    success returns the session built from it. *)
Theorem stub_createSession_outcomes v scopes :
  let out := run (createSession scopes) v in
  let asked := record (Asked "Enter LDAP password" true)
                 (next_input (record (Asked "Enter LDAP username" false)
                                (next_input v))) in
  (length (requests (log out.2)) <= length (requests (log v)) + 1)%nat /\
  (forall e, out.1 = Thrown e ->
     secrets out.2 = secrets v /\ events (log out.2) = events (log v)) /\
  (falsy (next_answer v) || falsy (next_answer (next_input v)) = true ->
     out = (Thrown (Error "Username and password required"), asked)) /\
  (forall u p,
     next_answer v = Some u -> truthy u = true ->
     next_answer (next_input v) = Some p -> truthy p = true ->
     requests (log out.2) = POST_login u p :: requests (log v) /\
     out.1 =
       match replies v with
       | Status_ok (Some data) :: _ => Returned (new_session u data)
       | Status_ok None :: _ => Thrown (SyntaxError "Unexpected end of JSON input")
       | Status_error _ :: _ => Thrown (Error "LDAP authentication failed")
       | Rejected e :: _ => Thrown e
       | [] => Thrown (FetchError "aborted")
       end).
Proof.
  destruct v as [sec fl nw lt ins rs lg]. unfold next_answer, createSession.
  simpl.
  destruct ins as [|[u|] [|[p|] ins]]; simpl.
  all: try (destruct u as [|c u]); try (destruct p as [|c' p]); simpl.
  all: try (split; [lia|]; split; [intros e _; split; reflexivity|];
            split; [intros _; reflexivity|];
            intros u0 p0 Hu Htu Hp Htp; try discriminate;
            try (injection Hu as <-; discriminate);
            try (injection Hp as <-; discriminate); fail).
  destruct rs as [|[e|[data|]|detail] rs]; simpl.
  all: split; [lia|]; split;
    [intros e0 He; try discriminate; split; reflexivity|];
    split; [discriminate|];
    intros u0 p0 [= <-] _ [= <-] _; split; reflexivity.
Qed.

(** X13: [removeSession] of the stub on an id that is in the stored list
    takes the first record with that id out of the list, saves the list
    and fires [removed] with the record.  The server is never told: no
    request is sent. *)
Theorem stub_removeSession_known v l1 s l2 sid :
  secrets v !! SESSIONS_KEY = Some (Json (l1 ++ s :: l2)) ->
  id s = sid ->
  Forall (fun x => id x ≠ sid) l1 ->
  let out := run (removeSession sid) v in
  out.1 = Returned tt /\
  secrets out.2 !! SESSIONS_KEY = Some (Json (l1 ++ l2)) /\
  requests (log out.2) = requests (log v) /\
  log out.2 =
    [Fired {| added := []; removed := [s]; changed := [] |};
     Saved SESSIONS_KEY (Json (l1 ++ l2)); Loaded SESSIONS_KEY] ++ log v.
Proof.
  intros Hl Hs Hl1 out. subst out. unfold removeSession.
  rewrite run_bind, run_await, stub_run_getSessions, Hl. cbv beta iota zeta.
  rewrite (findIndex_first _ l1 s l2).
  2:{ eapply Forall_impl; [exact Hl1|]. intros y Hy. apply String.eqb_neq, Hy. }
  2:{ apply String.eqb_eq, Hs. }
  rewrite at_index_middle, splice_middle.
  rewrite run_bind, run_await. simpl.
  split; [reflexivity|]. split; [apply lookup_insert_eq|]. split; reflexivity.
Qed.

(** What the loop of the stub keeps: it never throws, sends one request a
    record, and the records it pushes are refreshed copies of some of the
    records it visited, in their order. *)
Lemma stub_run_sweep_keeps l acc v :
  exists kept acc' v',
    run (sweep l acc) v = (Returned (acc ++ acc'), v') /\
    sublist kept l /\
    Forall2 stub_same_identity kept acc' /\
    secrets v' = secrets v /\
    isRefreshing v' = isRefreshing v /\
    events (log v') = events (log v) /\
    (Forall (fun r => next_grant [r] = None) (take (length l) (replies v)) ->
     acc' = []).
Proof.
  revert acc v. induction l as [|s l IH]; intros acc v.
  - exists [], [], v. rewrite app_nil_r. repeat split; auto; constructor.
  - rewrite stub_run_sweep_cons. cbv zeta.
    destruct v as [sec fl nw lt ins rs lg].
    destruct rs as [|r rs]; simpl next_grant; [|destruct r as [e|[data|]|detail]];
      cbv iota beta.
    3: { match goal with |- context [run (sweep l ?a) ?v1] =>
           destruct (IH a v1) as (kept & acc' & v' & Hrun & Hsub & Hall & Hs & Hf & He & _)
         end.
         exists (s :: kept),
           (with_tokens s (refreshed_tokens data (refreshToken s)) :: acc'), v'.
         rewrite Hrun, <- app_assoc. simpl.
         split; [reflexivity|]. split; [constructor; exact Hsub|].
         split; [constructor; [repeat split | exact Hall]|].
         split; [exact Hs|]. split; [exact Hf|]. split; [exact He|].
         intros Hnone. apply Forall_cons in Hnone. destruct Hnone as [Hr _].
         discriminate. }
    all: match goal with |- context [run (sweep _ ?a) ?v1] =>
           destruct (IH a v1) as (kept & acc' & v' & Hrun & Hsub & Hall & Hs & Hf & He & Hnone)
         end;
         exists kept, acc', v'; rewrite Hrun;
         (split; [reflexivity|]); (split; [constructor; exact Hsub|]);
         (split; [exact Hall|]); (split; [exact Hs|]); (split; [exact Hf|]);
         (split; [exact He|]); simpl; intros Hfail; apply Hnone;
         try (apply Forall_cons in Hfail; destruct Hfail as [_ Hfail]);
         try exact Hfail.
    simpl. rewrite take_nil. constructor.
Qed.

(** X14: a sweep of the stub over a store that can be read returns
    normally, lowers the flag and fires no event.  The sessions it saves
    are refreshed copies of some of the stored sessions, in their order
    and with their id, account and scopes, so that no session is ever
    added; and when the server grants none of the refreshes nothing is
    saved, the store staying exactly as it was. *)
Theorem stub_refreshSessions_keeps v l :
  isRefreshing v = false ->
  (run getSessions v).1 = Returned l ->
  let out := run refreshSessions v in
  out.1 = Returned tt /\
  isRefreshing out.2 = false /\
  events (log out.2) = events (log v) /\
  (exists kept l',
     sublist kept l /\ Forall2 stub_same_identity kept l' /\
     secrets out.2 =
       match l' with
       | [] => secrets v
       | _ :: _ => <[SESSIONS_KEY := Json l']> (secrets v)
       end) /\
  (Forall (fun r => next_grant [r] = None) (take (length l) (replies v)) ->
   secrets out.2 = secrets v).
Proof.
  intros Hv Hl out. subst out.
  rewrite stub_run_getSessions in Hl. cbn [fst] in Hl.
  rewrite stub_run_refreshSessions, Hv. unfold sweep_all.
  rewrite run_bind, run_await, stub_run_getSessions.
  change (secrets (set_refreshing true v)) with (secrets v). rewrite Hl.
  cbv beta iota. rewrite run_bind.
  destruct (stub_run_sweep_keeps l [] (record (Loaded SESSIONS_KEY) (set_refreshing true v)))
    as (kept & l' & v' & Hrun & Hsub & Hall & Hsec & Hflag & Hev & Hnone).
  rewrite Hrun. simpl app. cbv beta iota.
  destruct l' as [|x l'].
  - simpl. repeat split; auto. exists kept, []. auto.
  - change (0 <? Z.of_nat (length (x :: l'))) with true. cbv iota.
    rewrite run_await. simpl.
    split; [reflexivity|]. split; [reflexivity|]. split; [exact Hev|]. split.
    + exists kept, (x :: l'). rewrite Hsec. auto.
    + intros Hfail. specialize (Hnone Hfail). discriminate.
Qed.

End StubMore.

(** ** Session information for the control plane *)

Section SessionInfo.

Import ControlPlane.

(** X15: [getLdapSessionInfo] hands out the access token and the account
    of the session the host has for the [ldap] provider.  Asked silently
    it never starts a sign-in and leaves the host as it was, answering
    [undefined] when there is no session.  Asked otherwise with no session
    it starts one sign-in, and answers with the session that comes out of
    it, or with [undefined] when the sign-in fails, the failure being
    swallowed. *)
Theorem getLdapSessionInfo_behaviour (silent useOnboarding : bool) (h : Host) :
  let out := getLdapSessionInfo silent useOnboarding h in
  (forall session,
     registry h !! "ldap" = Some session ->
     out = (Some (session_info session), h)) /\
  (silent = true ->
     out.2 = h /\ (registry h !! "ldap" = None -> out.1 = None)) /\
  (silent = false ->
   registry h !! "ldap" = None ->
     out.2 = start_sign_in "ldap" h /\
     out.1 = session_info <$> sign_in h !! "ldap").
Proof.
  intros out. subst out. unfold getLdapSessionInfo, authentication_getSession.
  simpl. split; [|split].
  - intros session Hreg. rewrite Hreg. reflexivity.
  - intros ->. simpl. destruct (registry h !! "ldap"); split; try reflexivity;
      discriminate.
  - intros -> Hreg. rewrite Hreg. simpl.
    destruct (sign_in h !! "ldap"); split; reflexivity.
Qed.

End SessionInfo.

(** ** The further properties at work on the sample worlds *)

Section MoreWitnesses.

Import LdapAuthProvider.

(** The user dismisses the first prompt. *)
Lemma createSession_missing_input_witness :
  let w := Scenario.idle None [None] [] in
  falsy (next_answer w) = true /\
  run (createSession []) w =
    (Thrown (Error "Username required"),
     record (Asked "Enter LDAP username" false) (next_input w)).
Proof.
  intros w. split; [reflexivity|].
  apply (proj1 (createSession_missing_input w [])). reflexivity.
Defined.

(** A rejected login, then the user gives up, with a session in the
    store. *)
Lemma createSession_failure_harmless_witness :
  let w := Scenario.idle (Some (Json [Scenario.bob]))
             [Some "alice"; Some "x"; None] [Status_error None] in
  let out := run (createSession []) w in
  out.1 = Thrown (Error "Username required") /\
  secrets out.2 = secrets w /\
  events (log out.2) = events (log w).
Proof.
  intros w out.
  assert (Hrun : run (createSession []) w =
                 (Thrown (Error "Username required"), out.2))
    by (vm_compute; reflexivity).
  split; [vm_compute; reflexivity|].
  exact (createSession_failure_harmless w [] _ _ Hrun).
Defined.

(** A sweep over a session that has not expired and one that has, the
    refresh being granted. *)
Lemma refreshSessions_preserves_sessions_witness :
  let w := Scenario.idle (Some (Json [Scenario.bob; Scenario.alice])) []
             [Status_ok (Some (Scenario.granted "T9" None))] in
  let out := run refreshSessions w in
  isRefreshing w = false /\
  (run getSessions w).1 = Returned [Scenario.bob; Scenario.alice] /\
  out.1 = Returned tt /\
  isRefreshing out.2 = false /\
  events (log out.2) = events (log w) /\
  exists l',
    Forall2 same_identity [Scenario.bob; Scenario.alice] l' /\
    secrets out.2 = <[SESSIONS_KEY := Json l']> (secrets w).
Proof.
  intros w out.
  assert (Hget : (run getSessions w).1 = Returned [Scenario.bob; Scenario.alice])
    by (vm_compute; reflexivity).
  destruct (refreshSessions_preserves_sessions w _ eq_refl Hget)
    as (Hret & Hflag & Hev & _ & Hkept).
  split; [reflexivity|]. split; [exact Hget|]. split; [exact Hret|].
  split; [exact Hflag|]. split; [exact Hev | exact Hkept].
Defined.

(** The stored session has expired and the server grants a new access
    token without a new refresh token. *)
Lemma refreshSessions_updates_granted_witness :
  let w := Scenario.idle (Some (Json [Scenario.alice])) []
             [Status_ok (Some (Scenario.granted "T2" None))] in
  expiresAt Scenario.alice <= now (sweep_start w) /\
  exists l' w' s',
    run refreshSessions w = (Returned tt, w') /\
    secrets w' !! SESSIONS_KEY = Some (Json l') /\
    l' !! 0%nat = Some s' /\
    same_identity Scenario.alice s' /\
    accessToken s' = "T2" /\
    refreshToken s' = "R1" /\
    expiresAt s' = 606000.
Proof.
  intros w. split; [discriminate|].
  apply (refreshSessions_updates_granted w [] Scenario.alice [] [] (sweep_start w)
           (Scenario.granted "T2" None));
    try reflexivity. discriminate.
Defined.

(** Removing the first of two stored sessions, twice. *)
Lemma removeSession_twice_witness :
  let w := Scenario.idle (Some (Json [Scenario.alice; Scenario.bob])) [] [] in
  let once := (run (removeSession "alice") w).2 in
  secrets w !! SESSIONS_KEY = Some (Json [Scenario.alice; Scenario.bob]) /\
  run (removeSession "alice") once = (Returned tt, record (Loaded SESSIONS_KEY) once).
Proof.
  intros w once. split; [reflexivity|].
  apply (removeSession_twice w [] Scenario.alice [Scenario.bob] "alice");
    try reflexivity.
  - constructor.
  - repeat constructor. discriminate.
Defined.

(** A granted login, then the removal of the new session. *)
Lemma createSession_then_removeSession_witness :
  let w := Scenario.idle None [Some "alice"; Some "x"]
             [Status_ok (Some (Scenario.granted "T1" (Some "R1")))] in
  let session := new_session "alice" (Scenario.granted "T1" (Some "R1")) 5000 in
  let w' := (run (createSession []) w).2 in
  let out := run (removeSession "alice") w' in
  (run (createSession []) w).1 = Returned session /\
  out.1 = Returned tt /\
  secrets out.2 !! SESSIONS_KEY = Some (Json []) /\
  events (log out.2) = [{| added := []; removed := [session]; changed := [] |}] /\
  requests (log out.2) = [POST_logout "R1"] ++ requests (log w').
Proof.
  intros w session w' out.
  assert (Hrun : run (createSession []) w = (Returned session, w'))
    by (vm_compute; reflexivity).
  split; [vm_compute; reflexivity|].
  exact (createSession_then_removeSession w [] session w' Hrun).
Defined.

(** A granted login, then a sweep one second later. *)
Lemma createSession_then_refreshSessions_witness :
  let w := Scenario.idle None [Some "alice"; Some "x"]
             [Status_ok (Some (Scenario.granted "T1" (Some "R1")))] in
  let session := new_session "alice" (Scenario.granted "T1" (Some "R1")) 5000 in
  let w' := (run (createSession []) w).2 in
  let out := run refreshSessions w' in
  now w' = 6000 /\
  out.1 = Returned tt /\
  requests (log out.2) = requests (log w') /\
  secrets out.2 !! SESSIONS_KEY = Some (Json [session]).
Proof.
  intros w session w' out.
  assert (Hrun : run (createSession []) w = (Returned session, w'))
    by (vm_compute; reflexivity).
  assert (Hidle : isRefreshing w' = false) by (vm_compute; reflexivity).
  assert (Hclock : now w' < now w + 600000) by (vm_compute; reflexivity).
  split; [vm_compute; reflexivity|].
  exact (createSession_then_refreshSessions w [] session w' Hrun Hidle Hclock).
Defined.

(** The interval fires, the sweep gets the stored list, the interval
    fires again, and the sweep goes on to its refresh call. *)
Lemma timer_single_sweep_witness :
  let w := Scenario.idle (Some (Json [Scenario.alice])) []
             [Status_ok (Some (Scenario.granted "T9" None))] in
  let m := play refreshSessions [Tick; Wake 0; Tick; Wake 0]
             {| tasks := []; state := w |} in
  isRefreshing w = false /\
  tasks m <> [] /\
  (length (tasks m) <= 1)%nat /\
  isRefreshing (state m) = true /\
  tick refreshSessions m = m.
Proof.
  intros w m.
  destruct (timer_single_sweep w [Tick; Wake 0; Tick; Wake 0] eq_refl)
    as (Hlen & Hiff & Htick).
  assert (Hne : tasks m <> []) by (vm_compute; discriminate).
  split; [reflexivity|]. split; [exact Hne|]. split; [exact Hlen|].
  split; [exact (proj2 Hiff Hne) | exact (Htick Hne)].
Defined.

End MoreWitnesses.

Section MoreStubWitnesses.

Import StubProvider.

(** A sweep of the stub, interrupted while its refresh call is in
    flight. *)
Lemma stub_refreshSessions_reentrancy_guard_witness :
  let v := StubScenario.idle (Some (Json [StubScenario.alice])) []
             [Status_ok (Some (StubScenario.granted "T9" None 3600))] in
  let first := Nat.iter 2 resume (settle refreshSessions v) in
  isRefreshing v = false /\
  pending first.1 = true /\
  isRefreshing first.2 = true /\
  settle refreshSessions first.2 = (Ret tt, first.2) /\
  run first.1 (settle refreshSessions first.2).2 = run refreshSessions v /\
  isRefreshing (run refreshSessions v).2 = false.
Proof.
  intros v first.
  destruct (stub_refreshSessions_reentrancy_guard v) as [_ H].
  destruct (H eq_refl) as (Hover & Hdown).
  destruct (Hover 2%nat eq_refl) as (Hup & Hsecond & Hsame).
  split; [reflexivity|]. split; [reflexivity|]. split; [exact Hup|].
  split; [exact Hsecond|]. split; [exact Hsame | exact Hdown].
Defined.

(** The server rejects the credentials. *)
Lemma stub_createSession_outcomes_witness :
  let v := StubScenario.idle None [Some "alice"; Some "x"] [Status_error None] in
  let out := run (createSession []) v in
  next_answer v = Some "alice" /\
  requests (log out.2) = [POST_login "alice" "x"] /\
  out.1 = Thrown (Error "LDAP authentication failed") /\
  secrets out.2 = secrets v.
Proof.
  intros v out.
  destruct (stub_createSession_outcomes v []) as (_ & Hharmless & _ & H).
  destruct (H "alice" "x" eq_refl eq_refl eq_refl eq_refl) as [Hreq Hout].
  split; [reflexivity|]. split; [exact Hreq|]. split; [exact Hout|].
  exact (proj1 (Hharmless _ Hout)).
Defined.

(** Removing the second of two stored sessions. *)
Lemma stub_removeSession_known_witness :
  let v := StubScenario.idle
             (Some (Json [StubScenario.alice; StubScenario.bob])) [] [] in
  let out := run (removeSession "bob") v in
  secrets v !! SESSIONS_KEY = Some (Json [StubScenario.alice; StubScenario.bob]) /\
  out.1 = Returned tt /\
  secrets out.2 !! SESSIONS_KEY = Some (Json [StubScenario.alice]) /\
  requests (log out.2) = [] /\
  log out.2 =
    [Fired {| added := []; removed := [StubScenario.bob]; changed := [] |};
     Saved SESSIONS_KEY (Json [StubScenario.alice]); Loaded SESSIONS_KEY].
Proof.
  intros v out. split; [reflexivity|].
  apply (stub_removeSession_known v [StubScenario.alice] StubScenario.bob [] "bob");
    [reflexivity | reflexivity |].
  repeat constructor. discriminate.
Defined.

(** A sweep of the stub in which the server grants nothing. *)
Lemma stub_refreshSessions_keeps_witness :
  let v := StubScenario.idle
             (Some (Json [StubScenario.alice; StubScenario.bob])) []
             [Status_error None; Rejected (FetchError "timeout")] in
  let out := run refreshSessions v in
  isRefreshing v = false /\
  (run getSessions v).1 = Returned [StubScenario.alice; StubScenario.bob] /\
  out.1 = Returned tt /\
  isRefreshing out.2 = false /\
  secrets out.2 = secrets v.
Proof.
  intros v out.
  assert (Hget : (run getSessions v).1 =
                 Returned [StubScenario.alice; StubScenario.bob])
    by (vm_compute; reflexivity).
  destruct (stub_refreshSessions_keeps v _ eq_refl Hget)
    as (Hret & Hflag & _ & _ & Hnone).
  split; [reflexivity|]. split; [exact Hget|]. split; [exact Hret|].
  split; [exact Hflag|]. apply Hnone. repeat constructor.
Defined.

End MoreStubWitnesses.

Section SessionInfoWitness.

Import ControlPlane.

(** No session yet: asked silently, and asked otherwise. *)
Lemma getLdapSessionInfo_behaviour_witness :
  let h := ControlPlaneScenario.signed_out in
  registry h !! "ldap" = None /\
  getLdapSessionInfo true false h = (None, h) /\
  getLdapSessionInfo false false h =
    (Some (session_info ControlPlaneScenario.session), start_sign_in "ldap" h) /\
  (getLdapSessionInfo false false ControlPlaneScenario.reluctant).1 = None.
Proof.
  intros h.
  destruct (getLdapSessionInfo_behaviour true false h) as (_ & Hsilent & _).
  destruct (Hsilent eq_refl) as [Hhost Hnone].
  destruct (getLdapSessionInfo_behaviour false false h) as (_ & _ & Hloud).
  destruct (Hloud eq_refl eq_refl) as [Hhost' Hsome].
  destruct (getLdapSessionInfo_behaviour false false ControlPlaneScenario.reluctant)
    as (_ & _ & Hgiveup).
  destruct (Hgiveup eq_refl eq_refl) as [_ Hgone].
  split; [reflexivity|]. split; [|split].
  - apply injective_projections; [exact (Hnone eq_refl) | exact Hhost].
  - apply injective_projections; [exact Hsome | exact Hhost'].
  - exact Hgone.
Defined.

End SessionInfoWitness.

(** ** The single-account store *)

Section SmallStore.

Lemma splice_length_le {A} (l : list A) (start deleteCount : Z) :
  (length (splice l start deleteCount) <= length l)%nat.
Proof.
  unfold splice. rewrite length_app, length_take, length_drop.
  destruct (start <? 0) eqn:E; [apply Z.ltb_lt in E | apply Z.ltb_ge in E]; lia.
Qed.

Lemma at_most_one_insert {S} (store : gmap string (Secret S)) (l : list S) :
  (length l <= 1)%nat -> at_most_one (<[SESSIONS_KEY := Json l]> store).
Proof. intros H. unfold at_most_one. rewrite lookup_insert_eq. exact H. Qed.

Lemma at_most_one_stored {S} (store : gmap string (Secret S)) (l : list S) :
  at_most_one store -> store !! SESSIONS_KEY = Some (Json l) ->
  (length l <= 1)%nat.
Proof. unfold at_most_one. intros H Hl. rewrite Hl in H. exact H. Qed.

End SmallStore.

Section ProviderSmallStore.

Import LdapAuthProvider.

Implicit Types w : world.

Lemma createSession_small w scopes :
  at_most_one (secrets w) ->
  at_most_one (secrets (run (createSession scopes) w).2).
Proof.
  intros Hsmall. destruct (run (createSession scopes) w) as [[session|e] w'] eqn:Hrun.
  - destruct (login_loop_success _ _ _ _ _ Hrun)
      as (u & p & data & prompt & older & k & _ & _ & _ & Hsec & _).
    simpl. rewrite Hsec. apply at_most_one_insert. simpl. lia.
  - destruct (login_loop_failure _ _ _ _ _ Hrun) as [Hsec _].
    simpl. rewrite Hsec. exact Hsmall.
Qed.

Lemma removeSession_small w sid :
  at_most_one (secrets w) ->
  at_most_one (secrets (run (removeSession sid) w).2).
Proof.
  intros Hsmall. unfold removeSession.
  rewrite run_bind, run_await, run_getSessions.
  destruct (secrets w !! SESSIONS_KEY) as [[| |l]|] eqn:Hsec;
    cbv beta iota zeta; try exact Hsmall.
  destruct (at_index l _) as [session|]; [|exact Hsmall].
  rewrite run_bind, run_await. simpl (run (storeSessions _) _). cbv beta iota.
  rewrite run_bind, run_try_catch.
  assert (Hlen : (length (splice l
                    (findIndex (fun s => String.eqb (id s) sid) l) 1) <= 1)%nat).
  { pose proof (splice_length_le l
                  (findIndex (fun s => String.eqb (id s) sid) l) 1).
    pose proof (at_most_one_stored _ _ Hsmall Hsec). lia. }
  destruct (truthy (refreshToken session)); simpl.
  - destruct (replies w) as [|[e|b|d] rs]; simpl;
      apply at_most_one_insert; exact Hlen.
  - apply at_most_one_insert. exact Hlen.
Qed.

Lemma refreshSessions_small w :
  at_most_one (secrets w) ->
  at_most_one (secrets (run refreshSessions w).2).
Proof.
  intros Hsmall. rewrite run_refreshSessions.
  destruct (isRefreshing w); [exact Hsmall|]. cbn [snd].
  unfold sweep_all. rewrite run_bind, run_await, run_getSessions.
  change (secrets (set_refreshing true w)) with (secrets w).
  destruct (secrets w !! SESSIONS_KEY) as [[| |l]|] eqn:Hsec;
    cbv beta iota; try exact Hsmall.
  rewrite run_bind.
  destruct (run_sweep_keeps l [] (record (Loaded SESSIONS_KEY) (set_refreshing true w)))
    as (l' & w' & Hrun & Hall & Hs & _).
  rewrite Hrun. simpl app. cbv beta iota.
  destruct (0 <? Z.of_nat (length l')).
  - rewrite run_await. simpl. rewrite Hs. apply at_most_one_insert.
    rewrite <- (Forall2_length _ _ _ Hall).
    exact (at_most_one_stored _ _ Hsmall Hsec).
  - simpl. rewrite Hs. exact Hsmall.
Qed.

Lemma handleTokenExpired_small w :
  at_most_one (secrets w) ->
  at_most_one (secrets (run handleTokenExpired w).2).
Proof.
  intros Hsmall. unfold handleTokenExpired.
  rewrite run_try_catch, run_bind, run_await, run_getSessions.
  destruct (secrets w !! SESSIONS_KEY) as [[| |[|s rest]]|] eqn:Hsec;
    cbv beta iota; try exact Hsmall.
  rewrite run_try_catch, run_bind, run_await, run_refreshSession.
  change (replies (record (Loaded SESSIONS_KEY) w)) with (replies w).
  destruct (replies w) as [|[e|[data|]|detail] rs]; simpl;
    apply at_most_one_insert; simpl; lia.
Qed.

End ProviderSmallStore.

Section StubSmallStore.

Import StubProvider.

Implicit Types v : world.

Lemma stub_createSession_small v scopes :
  at_most_one (secrets v) ->
  at_most_one (secrets (run (createSession scopes) v).2).
Proof.
  intros Hsmall. destruct v as [sec fl nw lt ins rs lg].
  unfold createSession. simpl in *.
  destruct ins as [|[u|] [|[p|] ins]]; simpl; try exact Hsmall.
  all: try (destruct u as [|c u]; simpl; exact Hsmall).
  destruct u as [|c u], p as [|c' p]; simpl; try exact Hsmall.
  destruct rs as [|[e|[data|]|detail] rs]; simpl; try exact Hsmall.
  apply at_most_one_insert. simpl. lia.
Qed.

Lemma stub_removeSession_small v sid :
  at_most_one (secrets v) ->
  at_most_one (secrets (run (removeSession sid) v).2).
Proof.
  intros Hsmall. unfold removeSession.
  rewrite run_bind, run_await, stub_run_getSessions.
  destruct (secrets v !! SESSIONS_KEY) as [[| |l]|] eqn:Hsec;
    cbv beta iota zeta; try exact Hsmall.
  1,3: rewrite run_bind, run_await; simpl;
       apply at_most_one_insert; simpl; lia.
  rewrite run_bind, run_await. simpl (run (storeSessions _) _). cbv beta iota.
  assert (Hlen : (length (splice l
                    (findIndex (fun s => String.eqb (id s) sid) l) 1) <= 1)%nat).
  { pose proof (splice_length_le l
                  (findIndex (fun s => String.eqb (id s) sid) l) 1).
    pose proof (at_most_one_stored _ _ Hsmall Hsec). lia. }
  destruct (at_index l _); simpl; apply at_most_one_insert; exact Hlen.
Qed.

Lemma stub_refreshSessions_small v :
  at_most_one (secrets v) ->
  at_most_one (secrets (run refreshSessions v).2).
Proof.
  intros Hsmall. rewrite stub_run_refreshSessions.
  destruct (isRefreshing v); [exact Hsmall|]. cbn [snd].
  unfold sweep_all. rewrite run_bind, run_await, stub_run_getSessions.
  change (secrets (set_refreshing true v)) with (secrets v).
  destruct (secrets v !! SESSIONS_KEY) as [[| |l]|] eqn:Hsec;
    cbv beta iota; try exact Hsmall.
  rewrite run_bind.
  destruct (stub_run_sweep_keeps l [] (record (Loaded SESSIONS_KEY) (set_refreshing true v)))
    as (kept & l' & v' & Hrun & Hsub & Hall & Hs & _).
  rewrite Hrun. simpl app. cbv beta iota.
  destruct (0 <? Z.of_nat (length l')).
  - rewrite run_await. simpl. rewrite Hs. apply at_most_one_insert.
    rewrite <- (Forall2_length _ _ _ Hall).
    pose proof (sublist_length _ _ Hsub).
    pose proof (at_most_one_stored _ _ Hsmall Hsec). lia.
  - simpl. rewrite Hs. exact Hsmall.
Qed.

(** The stub over its one stored session, the refresh not granted: the
    request is sent, nothing is saved, and the store is as it was. *)
Lemma stub_refreshSessions_failed_kept v s :
  isRefreshing v = false ->
  secrets v !! SESSIONS_KEY = Some (Json [s]) ->
  next_grant (replies v) = None ->
  let out := run refreshSessions v in
  out.1 = Returned tt /\
  requests (log out.2) = POST_refresh (refreshToken s) :: requests (log v) /\
  secrets out.2 = secrets v.
Proof.
  intros Hidle Hsec Hfail out. subst out.
  rewrite stub_run_refreshSessions, Hidle. unfold sweep_all.
  rewrite run_bind, run_await, stub_run_getSessions.
  change (secrets (set_refreshing true v)) with (secrets v). rewrite Hsec.
  cbv beta iota. rewrite run_bind, stub_run_sweep_cons. cbv zeta.
  change (replies (record (Loaded SESSIONS_KEY) (set_refreshing true v)))
    with (replies v).
  rewrite Hfail. simpl. repeat split.
Qed.

End StubSmallStore.

Section FailedRefresh.

(** C1: a session whose refresh fails during a sweep is still in the store,
    unchanged, after the sweep.  In the provider with the client-side
    expiry policy, whatever the stored list: when the sweep comes to a
    record that has expired and the server does not grant the refresh, the
    list the sweep saves has that very record at the same place, and as
    many records as before.  In the provider under [stubs], on the
    single-session store its methods keep: the refresh request is sent,
    and when the server does not grant it nothing is saved, so that the
    store is exactly as it was. *)
Theorem refreshSessions_failed_record_kept (w : LdapAuthProvider.world)
    (v : StubProvider.world) :
  (forall l1 s l2 acc1 w1,
     isRefreshing w = false ->
     secrets w !! SESSIONS_KEY = Some (Json (l1 ++ s :: l2)) ->
     run (LdapAuthProvider.sweep l1 []) (LdapAuthProvider.sweep_start w)
       = (Returned acc1, w1) ->
     LdapAuthProvider.expiresAt s <= now w1 ->
     next_grant (replies w1) = None ->
     exists l' w',
       run LdapAuthProvider.refreshSessions w = (Returned tt, w') /\
       secrets w' !! SESSIONS_KEY = Some (Json l') /\
       l' !! length l1 = Some s /\
       length l' = length (l1 ++ s :: l2)) /\
  (forall s,
     isRefreshing v = false ->
     secrets v !! SESSIONS_KEY = Some (Json [s]) ->
     next_grant (replies v) = None ->
     let out := run StubProvider.refreshSessions v in
     out.1 = Returned tt /\
     requests (log out.2) =
       POST_refresh (StubProvider.refreshToken s) :: requests (log v) /\
     secrets out.2 = secrets v /\
     secrets out.2 !! SESSIONS_KEY = Some (Json [s])).
Proof.
  split.
  - intros l1 s l2 acc1 w1. apply refreshSessions_keeps_failed.
  - intros s Hidle Hsec Hfail out. subst out.
    destruct (stub_refreshSessions_failed_kept v s Hidle Hsec Hfail)
      as (Hret & Hreq & Hsame).
    split; [exact Hret|]. split; [exact Hreq|]. split; [exact Hsame|].
    rewrite Hsame. exact Hsec.
Qed.

(** X16: the session list never grows beyond one record.  If the list
    stored under the key has at most one record, it still has after
    [createSession], [removeSession], [refreshSessions] and
    [handleTokenExpired] of the provider with the client-side expiry
    policy, and after [createSession], [removeSession] and
    [refreshSessions] of the provider under [stubs], however they end. *)
Theorem store_stays_small (w : LdapAuthProvider.world) (v : StubProvider.world)
    (scopes : list string) (sessionId : string) :
  (at_most_one (secrets w) ->
     at_most_one (secrets (run (LdapAuthProvider.createSession scopes) w).2) /\
     at_most_one (secrets (run (LdapAuthProvider.removeSession sessionId) w).2) /\
     at_most_one (secrets (run LdapAuthProvider.refreshSessions w).2) /\
     at_most_one (secrets (run LdapAuthProvider.handleTokenExpired w).2)) /\
  (at_most_one (secrets v) ->
     at_most_one (secrets (run (StubProvider.createSession scopes) v).2) /\
     at_most_one (secrets (run (StubProvider.removeSession sessionId) v).2) /\
     at_most_one (secrets (run StubProvider.refreshSessions v).2)).
Proof.
  split.
  - intros Hsmall. split; [apply createSession_small, Hsmall|].
    split; [apply removeSession_small, Hsmall|].
    split; [apply refreshSessions_small, Hsmall|].
    apply handleTokenExpired_small, Hsmall.
  - intros Hsmall. split; [apply stub_createSession_small, Hsmall|].
    split; [apply stub_removeSession_small, Hsmall|].
    apply stub_refreshSessions_small, Hsmall.
Qed.

(** One expired session in the store of either provider, and a server that
    refuses the refresh. *)
Lemma refreshSessions_failed_record_kept_witness :
  let w := Scenario.idle (Some (Json [Scenario.alice])) [] [Status_error None] in
  let v := StubScenario.idle (Some (Json [StubScenario.alice])) []
             [Status_error None] in
  isRefreshing w = false /\
  LdapAuthProvider.expiresAt Scenario.alice <= now (LdapAuthProvider.sweep_start w) /\
  (exists l' w',
     run LdapAuthProvider.refreshSessions w = (Returned tt, w') /\
     secrets w' !! SESSIONS_KEY = Some (Json l') /\
     l' !! 0%nat = Some Scenario.alice /\
     length l' = 1%nat) /\
  (run StubProvider.refreshSessions v).1 = Returned tt /\
  requests (log (run StubProvider.refreshSessions v).2) = [POST_refresh "R1"] /\
  secrets (run StubProvider.refreshSessions v).2 !! SESSIONS_KEY
    = Some (Json [StubScenario.alice]).
Proof.
  intros w v.
  destruct (refreshSessions_failed_record_kept w v) as [Hprovider Hstub].
  split; [reflexivity|]. split; [discriminate|]. split.
  - apply (Hprovider [] Scenario.alice [] [] (LdapAuthProvider.sweep_start w));
      try reflexivity. discriminate.
  - destruct (Hstub StubScenario.alice eq_refl eq_refl eq_refl)
      as (Hret & Hreq & _ & Hsec).
    split; [exact Hret|]. split; [exact Hreq | exact Hsec].
Defined.

(** A store with one session, in either provider. *)
Lemma store_stays_small_witness :
  let w := Scenario.idle (Some (Json [Scenario.bob]))
             [Some "alice"; Some "x"]
             [Status_ok (Some (Scenario.granted "T1" None))] in
  let v := StubScenario.idle (Some (Json [StubScenario.bob])) []
             [Status_error None] in
  at_most_one (secrets w) /\
  at_most_one (secrets (run (LdapAuthProvider.createSession []) w).2) /\
  at_most_one (secrets (run LdapAuthProvider.handleTokenExpired w).2) /\
  at_most_one (secrets v) /\
  at_most_one (secrets (run (StubProvider.removeSession "carol") v).2) /\
  at_most_one (secrets (run StubProvider.refreshSessions v).2).
Proof.
  intros w v.
  assert (Hw : at_most_one (secrets w)) by (vm_compute; apply le_n).
  assert (Hv : at_most_one (secrets v)) by (vm_compute; apply le_n).
  destruct (store_stays_small w v [] "carol") as [Hprovider Hstub].
  destruct (Hprovider Hw) as (Hcreate & _ & _ & Hrecover).
  destruct (Hstub Hv) as (_ & Hremove & Hsweep).
  repeat split; assumption.
Defined.

End FailedRefresh.
